(** * diun: the image command of the gRPC client and the webhook notifier

    A shallow embedding of two Go files of the repository:

    - the [image] sub-commands of the command-line client
      ([ImageListCmd.Run], [ImageInspectCmd.Run], [ImageRemoveCmd.Run],
      [ImagePruneCmd.Run]);
    - [internal/notif/webhook/client.go] ([Client.Send]).

    Both are straight-line effectful code: they talk to a gRPC server, a
    terminal, the standard output and an HTTP endpoint.  The embedding keeps
    the control flow of the Go functions and replaces each collaborator by
    the answer it gives (a record of answers, one field per call), while
    every effect the code performs is appended to a trace.  The Go standard
    library and the third-party packages are not part of the repository:
    what the code needs of them is either modelled after their documented
    behaviour ([GoLib]) or taken as a parameter. *)

From Stdlib Require Import ZArith List String Ascii.
From stdpp Require Import base option list strings gmap sorting pretty.

Local Open Scope string_scope.
Local Open Scope list_scope.
Local Open Scope Z_scope.

(** ** The pieces of Go the two files rely on *)
Module GoLib.

(** Go's [error] values, as far as the two files build or receive them.
    [Plain] is any error value that wraps nothing ([errors.New] and the
    like); [WithStack] is [github.com/pkg/errors.WithStack]; [UrlError] is
    [*url.Error], in which [net/http] wraps what [Client.Do] returns. *)
Inductive error : Type :=
  | Plain (text : string)
  | DeadlineExceeded
  | Canceled
  | WithStack (inner : error)
  | UrlError (op url : string) (inner : error).

(** [errors.Is(e, context.DeadlineExceeded)]: follow the [Unwrap] chain. *)
Fixpoint IsDeadlineExceeded (e : error) : bool :=
  match e with
  | DeadlineExceeded => true
  | WithStack inner => IsDeadlineExceeded inner
  | UrlError _ _ inner => IsDeadlineExceeded inner
  | Plain _ | Canceled => false
  end.

(** A Go call returning [(T, error)]. *)
Inductive result (A : Type) : Type :=
  | Ok (a : A)
  | Err (e : error).
Arguments Ok {A} a.
Arguments Err {A} e.

(** ** Effects

    A computation yields the trace of the effects it performed, in order,
    and either a value or the error it returned. *)
Section Effects.
Context {Event : Type}.

Definition M (A : Type) : Type := (list Event * result A)%type.

Definition ret {A} (a : A) : M A := ([], Ok a).
Definition fail {A} (e : error) : M A := ([], Err e).
Definition emit (ev : Event) : M unit := ([ev], Ok tt).

Definition bind {A B} (m : M A) (k : A → M B) : M B :=
  match m with
  | (t, Ok a) => let '(t', r) := k a in (t ++ t', r)
  | (t, Err e) => (t, Err e)
  end.

(** [defer f(); body]: [f] runs when the enclosing function returns,
    on every path out of [body]. *)
Definition defer {A} (cleanup : Event) (body : M A) : M A :=
  let '(t, r) := body in (t ++ [cleanup], r).

(** Lift the answer of a collaborator. *)
Definition answer {A} (r : result A) : M A := ([], r).

Definition trace {A} (m : M A) : list Event := m.1.
Definition outcome {A} (m : M A) : result A := m.2.
End Effects.
Arguments M : clear implicits.

Declare Scope go_scope.
Delimit Scope go_scope with go.
Notation "x <- m ;; k" := (bind m (fun x => k))
  (at level 100, m at next level, right associativity) : go_scope.
Notation "m ;;; k" := (bind m (fun _ => k))
  (at level 100, right associativity) : go_scope.

(** ** [sort.Slice]

    [sort.Slice(x, less)] sorts in place with pattern-defeating quicksort
    and promises no stability.  For slices of at most twelve elements the
    whole sort is the insertion sort below ([insertionSortLessFunc] in
    [sort/zsortfunc.go]):

      for i := a + 1; i < b; i++ {
        for j := i; j > a && less(j, j-1); j-- { swap(j, j-1) }
      }
*)
Section InsertionSort.
Context {A : Type} (less : A → A → bool).

(** The inner loop.  [before] is the already sorted part in reverse
    (its head is the element just left of [x]); [x] moves left while it
    is less than its left neighbour. *)
Fixpoint sink (x : A) (before : list A) : list A :=
  match before with
  | [] => [x]
  | p :: rest => if less x p then p :: sink x rest else x :: p :: rest
  end.

Definition insertionSort (l : list A) : list A :=
  reverse (foldl (λ before x, sink x before) [] l).
End InsertionSort.

(** What [less] has to be for a sort to make sense ("a transitive
    ordering" in the documentation of package [sort]): a strict weak
    order. *)
Record StrictWeakOrder {A} (less : A → A → bool) : Prop := {
  swo_irrefl : ∀ x, less x x = false;
  swo_trans : ∀ x y z, less x y = true → less y z = true → less x z = true;
  swo_incomp : ∀ x y z, less x y = false → less y z = false → less x z = false
}.

(** The contract of [sort.Slice]: the slice is rearranged, and afterwards
    no element is less than one standing before it. *)
Record SortsSlices (sort_Slice : ∀ A, (A → A → bool) → list A → list A)
  : Prop := {
  sort_Slice_perm : ∀ A less (l : list A), sort_Slice A less l ≡ₚ l;
  sort_Slice_sorted : ∀ A less (l : list A),
    StrictWeakOrder less →
    StronglySorted (λ x y, less y x = false) (sort_Slice A less l)
}.

(** ** [net/http.Header]

    A header is a [map[string][]string] whose keys are canonical MIME
    header keys.  [textproto.CanonicalMIMEHeaderKey] is a parameter. *)
Section Header.
Variable CanonicalMIMEHeaderKey : string → string.

Definition Header_Add (h : gmap string (list string)) (key value : string)
  : gmap string (list string) :=
  let k := CanonicalMIMEHeaderKey key in
  <[k := default [] (h !! k) ++ [value]]> h.

Definition Header_Set (h : gmap string (list string)) (key value : string)
  : gmap string (list string) :=
  <[CanonicalMIMEHeaderKey key := [value]]> h.

Definition Header_Get (h : gmap string (list string)) (key : string) : string :=
  match h !! CanonicalMIMEHeaderKey key with
  | Some (v :: _) => v
  | _ => EmptyString
  end.
End Header.

(** ** [fmt.Sprintf("%d", n)] *)
Definition Sprintf_d (n : Z) : string := pretty n.

(** ** [int64] arithmetic wraps around ([int] is as wide on the 64-bit
    platforms the client is built for). *)
Definition wrap64 (n : Z) : Z := (n + 2^63) mod 2^64 - 2^63.

(** ** [timestamppb.Timestamp] and [time.Time]

    A timestamp is an [int64] of seconds and an [int32] of nanoseconds
    since the Unix epoch.  A [time.Time] without a monotonic reading
    holds the seconds since January 1 of year 1 in an [int64] (what
    [t.sec()] returns: the field [ext]) and the nanoseconds within the
    second (what [t.nsec()] returns). *)
Record Timestamp := { seconds : Z; nanos : Z }.
Record Time := { sec : Z; nsec : Z }.

(** The seconds from January 1 of year 1 to the Unix epoch. *)
Definition unixToInternal : Z := 62135596800.

(** [time.Unix(sec, nsec)]:

      if nsec < 0 || nsec >= 1e9 {
        n := nsec / 1e9
        sec += n
        nsec -= n * 1e9
        if nsec < 0 { nsec += 1e9; sec-- }
      }
      return Time{uint64(nsec), sec + unixToInternal, Local}

    The seconds are [int64] and wrap around; the nanoseconds come from
    an [int32] and cannot. *)
Definition Unix (sec nsec : Z) : Time :=
  let '(sec, nsec) :=
    if (nsec <? 0) || (1000000000 <=? nsec) then
      let n := nsec ÷ 1000000000 in
      let sec := wrap64 (sec + n) in
      let nsec := nsec - n * 1000000000 in
      if nsec <? 0 then (wrap64 (sec - 1), nsec + 1000000000)
      else (sec, nsec)
    else (sec, nsec) in
  {| sec := wrap64 (sec + unixToInternal); nsec := nsec |}.

(** [x.AsTime()] is [time.Unix(x.GetSeconds(), int64(x.GetNanos()))]. *)
Definition AsTime (x : Timestamp) : Time := Unix (seconds x) (nanos x).

(** [t.After(u)] *)
Definition After (t u : Time) : bool :=
  (sec u <? sec t) || ((sec t =? sec u) && (nsec u <? nsec t)).

(** The nanoseconds a [Time] holds, counted from January 1 of year 1. *)
Definition instant (t : Time) : Z := sec t * 1000000000 + nsec t.

(** The nanoseconds since the Unix epoch a timestamp stands for. *)
Definition stamp (x : Timestamp) : Z := seconds x * 1000000000 + nanos x.

(** The timestamps [time.Time] holds without wrapping around: those
    whose second, counted from year 1, fits an [int64].  Every timestamp
    protobuf calls valid (years 1 to 9999) is one of them. *)
Definition representable (x : Timestamp) : Prop :=
  - 2^63 ≤ seconds x + nanos x `div` 1000000000 + unixToInternal < 2^63.

End GoLib.

(** ** The inventory client: the [image] command *)
Module Inventory.
Import GoLib.
Local Open Scope go_scope.

(** The protobuf messages of package [pb], with the fields the command
    reads.  Pointers to sub-messages are taken as set: the server fills
    [Latest] and [Image] in every answer it gives without an error. *)
Record Manifest := { Tag : string; Created : Timestamp; Digest : string; Size : Z }.
Record ImageListResponse_Image :=
  { Name : string; ManifestsCount : Z; Latest : Manifest }.
Record ImageInspectResponse_Image :=
  { InspectName : string; Manifests : list Manifest }.
Record ImagePruneResponse_Image :=
  { PruneName : string; PruneManifests : list Manifest }.

Inductive Message :=
  | ImageListResponse (Images : list ImageListResponse_Image)
  | ImageInspectResponse (Image : ImageInspectResponse_Image).

(** A cell of a [table.Row]: the rows hold strings and integers. *)
Inductive Cell := Str (s : string) | Int (n : Z).

(** What a command does to the outside. *)
Inductive Event :=
  | NewClient (authority : string)
  | ConnClose
  | CallImageList
  | CallImageInspect (name : string)
  | CallImageRemove (name : string)
  | CallImagePrune
  | AskOne (message : string)
  | Println (line : string)
  | Render (header : list Cell) (rows : list (list Cell)) (footer : list Cell).

(** What the outside answers: the gRPC client constructor, the four
    remote procedures, the terminal prompt and [protojson.Marshal]
    (whose second component is the error the commands drop). *)
Record World := {
  grpc_NewClient : string → result unit;
  ImageList : result (list ImageListResponse_Image);
  ImageInspect : string → result ImageInspectResponse_Image;
  ImageRemove : string → result (list Manifest);
  ImagePrune : result (list ImagePruneResponse_Image);
  survey_AskOne : string → result bool;
  protojson_Marshal : Message → string * option error
}.

(** The same outside, except that [ImageList] answers [il]. *)
Definition withImageList (w : World) (il : list ImageListResponse_Image) : World :=
  {| grpc_NewClient := grpc_NewClient w;
     ImageList := Ok il;
     ImageInspect := ImageInspect w;
     ImageRemove := ImageRemove w;
     ImagePrune := ImagePrune w;
     survey_AskOne := survey_AskOne w;
     protojson_Marshal := protojson_Marshal w |}.

Record ImageListCmd := { ListRaw : bool; ListGRPCAuthority : string }.
Record ImageInspectCmd :=
  { InspectImage : string; InspectRaw : bool; InspectGRPCAuthority : string }.
Record ImageRemoveCmd := { RemoveImage : string; RemoveGRPCAuthority : string }.
Record ImagePruneCmd := { Force : bool; PruneGRPCAuthority : string }.

Definition pruneAllWarning : string :=
  "This will remove all manifests from the database. Are you sure you want to continue?".

Section Commands.
(** Library functions the commands call. *)
Variable sort_Slice : ∀ A, (A → A → bool) → list A → list A.
(** [strings.Map(unicode.ToUpper, s)] *)
Variable ToUpper : string → string.
(** [t.Format(time.RFC3339)] *)
Variable FormatRFC3339 : Time → string.
(** [units.HumanSize(float64(n))] *)
Variable HumanSize : Z → string.
(** [pretty.Pretty] *)
Variable Pretty : string → string.

Variable w : World.

Definition connect (authority : string) : M Event unit :=
  emit (NewClient authority) ;;; answer (grpc_NewClient w authority).

(** The comparison handed to [sort.Slice] by [ImageListCmd.Run]; Go
    compares strings byte by byte. *)
Definition lessName (a b : ImageListResponse_Image) : bool :=
  String.ltb (ToUpper (Name a)) (ToUpper (Name b)).

(** The comparison handed to [sort.Slice] by [ImageInspectCmd.Run]. *)
Definition lessCreated (a b : Manifest) : bool :=
  After (AsTime (Created a)) (AsTime (Created b)).

Definition listRow (image : ImageListResponse_Image) : list Cell :=
  [Str (Name image); Int (ManifestsCount image); Str (Tag (Latest image));
   Str (FormatRFC3339 (AsTime (Created (Latest image))));
   Str (Digest (Latest image))].

(** [ImageListCmd.Run] from the sort on: what is printed for the sorted
    response. *)
Definition listReport (raw : bool) (il : list ImageListResponse_Image)
  : M Event unit :=
  if raw then
    let '(b, _) := protojson_Marshal w (ImageListResponse il) in
    emit (Println (Pretty b))
  else if (Z.of_nat (length il) =? 0) then
    emit (Println "No image found in the database")
  else
    emit (Render
            [Str "Name"; Str "Manifests Count"; Str "Latest Tag";
             Str "Latest Created"; Str "Latest Digest"]
            (map listRow il)
            [Str "Total"; Int (Z.of_nat (length il))]).

Definition ImageListCmd_Run (s : ImageListCmd) : M Event unit :=
  connect (ListGRPCAuthority s) ;;;
  defer ConnClose (
    il <- (emit CallImageList ;;; answer (ImageList w)) ;;
    listReport (ListRaw s) (sort_Slice _ lessName il)).

Definition inspectRow (image : Manifest) : list Cell :=
  [Str (Tag image); Str (FormatRFC3339 (AsTime (Created image)));
   Str (Digest image)].

(** [ImageInspectCmd.Run] from the sort on. *)
Definition inspectReport (raw : bool) (ii : ImageInspectResponse_Image)
  : M Event unit :=
  if raw then
    let '(b, _) := protojson_Marshal w (ImageInspectResponse ii) in
    emit (Println (Pretty b))
  else
    emit (Render
            [Str "Tag"; Str "Created"; Str "Digest"]
            (map inspectRow (Manifests ii))
            [Str "Total"; Int (Z.of_nat (length (Manifests ii)))]).

Definition ImageInspectCmd_Run (s : ImageInspectCmd) : M Event unit :=
  connect (InspectGRPCAuthority s) ;;;
  defer ConnClose (
    ii <- (emit (CallImageInspect (InspectImage s)) ;;;
           answer (ImageInspect w (InspectImage s))) ;;
    inspectReport (InspectRaw s)
      {| InspectName := InspectName ii;
         Manifests := sort_Slice _ lessCreated (Manifests ii) |}).

Definition removedRow (image : Manifest) : list Cell :=
  [Str (Tag image); Str (FormatRFC3339 (AsTime (Created image)));
   Str (Digest image); Str (HumanSize (Size image))].

(** [fmt.Sprintf("%d (%s)", n, units.HumanSize(float64(total)))] *)
Definition totalCell (n total : Z) : Cell :=
  Str (Sprintf_d n +:+ " (" +:+ HumanSize total +:+ ")").

(** The loop of [ImageRemoveCmd.Run]: one row per manifest, the sizes
    added up in an [int64]. *)
Definition removeLoop (manifests : list Manifest) : list (list Cell) * Z :=
  foldl (λ '(rows, totalSize) image,
           (rows ++ [removedRow image], wrap64 (totalSize + Size image)))
        ([], 0) manifests.

Definition ImageRemoveCmd_Run (s : ImageRemoveCmd) : M Event unit :=
  connect (RemoveGRPCAuthority s) ;;;
  defer ConnClose (
    removed <- (emit (CallImageRemove (RemoveImage s)) ;;;
                answer (ImageRemove w (RemoveImage s))) ;;
    let '(rows, totalSize) := removeLoop removed in
    emit (Render
            [Str "Tag"; Str "Created"; Str "Digest"; Str "Size"]
            rows
            [Str "Total"; totalCell (Z.of_nat (length removed)) totalSize])).

(** The nested loops of [ImagePruneCmd.Run]. *)
Definition pruneLoop (images : list ImagePruneResponse_Image)
  : list (list Cell) * Z * Z :=
  foldl (λ '(rows, totalSize, totalManifest) image,
           let '(rows, totalSize) :=
             foldl (λ '(rows, totalSize) manifest,
                      (rows ++ [removedRow manifest],
                       wrap64 (totalSize + Size manifest)))
                   (rows, totalSize) (PruneManifests image) in
           (rows, totalSize,
            wrap64 (totalManifest + Z.of_nat (length (PruneManifests image)))))
        ([], 0, 0) images.

(** [ImagePruneCmd.Run] from the remote call on. *)
Definition pruneAndReport : M Event unit :=
  removed <- (emit CallImagePrune ;;; answer (ImagePrune w)) ;;
  if (Z.of_nat (length removed) =? 0) then
    emit (Println "Nothing to be removed from the database")
  else
    let '(rows, totalSize, totalManifest) := pruneLoop removed in
    emit (Render
            [Str "Tag"; Str "Created"; Str "Digest"; Str "Size"]
            rows
            [Str "Total"; totalCell totalManifest totalSize]).

Definition ImagePruneCmd_Run (s : ImagePruneCmd) : M Event unit :=
  connect (PruneGRPCAuthority s) ;;;
  defer ConnClose (
    if negb (Force s) then
      confirmed <- (emit (AskOne pruneAllWarning) ;;;
                    answer (survey_AskOne w pruneAllWarning)) ;;
      if negb confirmed then ret tt else pruneAndReport
    else pruneAndReport).
End Commands.

End Inventory.

(** ** The webhook notifier: [internal/notif/webhook/client.go] *)
Module Webhook.
Import GoLib.
Local Open Scope go_scope.

(** [model.NotifWebhook], as far as [Send] reads it.  [Headers] is a Go
    map; it is kept as the list of its entries in the order the [range]
    loop happens to visit them.  [Timeout] is a [*time.Duration] that the
    configuration always sets; it is the duration in nanoseconds. *)
Record NotifWebhook :=
  { Endpoint : string; Headers : list (string * string); Timeout : Z }.

(** [model.Meta], as far as [Send] reads it. *)
Record Meta := { Name : string; UserAgent : string }.

(** [context.Context], as [Send] builds it. *)
Inductive Context :=
  | Background
  | WithCancelCause (parent : Context)
  | WithTimeoutCause (parent : Context) (timeout : Z) (cause : error).

(** The time left before a context expires, with the cause it then
    reports; a child never outlives its parent. *)
Fixpoint Deadline (ctx : Context) : option (Z * error) :=
  match ctx with
  | Background => None
  | WithCancelCause parent => Deadline parent
  | WithTimeoutCause parent timeout cause =>
      match Deadline parent with
      | Some (d, c) => if d <=? timeout then Some (d, c) else Some (timeout, cause)
      | None => Some (timeout, cause)
      end
  end.

Record Request := {
  Method : string;
  URL : string;
  Body : string;
  Header : gmap string (list string);
  Ctx : Context
}.

Record Response := { StatusCode : Z; ResponseBody : string }.

(** What the remote end does with a request: how long the exchange takes
    (in nanoseconds) and how it ends when it is given that long, with a
    response of some status or with a transport failure. *)
Record Exchange := { latency : Z; reply : result Response }.

Inductive Event :=
  | ClientDo (req : Request)
  | BodyClose
  | Cancel (cause : error).

Section Send.
(** [model.NotifEntry] and [*msg.Client] are opaque to [Send]. *)
Context {NotifEntry MsgClient : Type}.

Variable CanonicalMIMEHeaderKey : string → string.

(** What the collaborators answer: [msg.New], [RenderJSON], the checks
    of [http.NewRequestWithContext] on method and URL, and the remote
    end. *)
Record World := {
  msg_New : Meta → NotifEntry → result MsgClient;
  RenderJSON : MsgClient → result string;
  http_NewRequest : string → string → result unit;
  remote : Request → Exchange
}.

Variable w : World.

Record Client := { cfg : NotifWebhook; meta : Meta }.

(** [Client.Name] *)
Definition Client_Name (c : Client) : string := "webhook".

Definition NewRequestWithContext (ctx : Context) (method url body : string)
  : M Event Request :=
  answer (http_NewRequest w method url) ;;;
  ret {| Method := method; URL := url; Body := body; Header := ∅; Ctx := ctx |}.

(** [http.Client.Do] on a client without a timeout of its own: the
    exchange is abandoned when the context of the request expires
    first, and the error is then the cause of the context; every error
    comes back wrapped in a [*url.Error]. *)
Definition Client_Do (req : Request) : M Event Response :=
  emit (ClientDo req) ;;;
  let x := remote w req in
  match Deadline (Ctx req) with
  | Some (d, cause) =>
      if d <=? latency x then fail (UrlError "Post" (URL req) cause)
      else match reply x with
           | Ok resp => ret resp
           | Err e => fail (UrlError "Post" (URL req) e)
           end
  | None =>
      match reply x with
      | Ok resp => ret resp
      | Err e => fail (UrlError "Post" (URL req) e)
      end
  end.

Definition addHeaders (req : Request) (headers : list (string * string)) : Request :=
  foldl (λ req '(key, value),
           {| Method := Method req; URL := URL req; Body := Body req;
              Header := Header_Add CanonicalMIMEHeaderKey (Header req) key value;
              Ctx := Ctx req |})
        req headers.

Definition setUserAgent (req : Request) (agent : string) : Request :=
  {| Method := Method req; URL := URL req; Body := Body req;
     Header := Header_Set CanonicalMIMEHeaderKey (Header req) "User-Agent" agent;
     Ctx := Ctx req |}.

(** [Client.Send] *)
Definition Send (c : Client) (entry : NotifEntry) : M Event unit :=
  message <- answer (msg_New w (meta c) entry) ;;
  body <- answer (RenderJSON w message) ;;
  let cancelCtx := WithCancelCause Background in
  let timeoutCtx :=
    WithTimeoutCause cancelCtx (Timeout (cfg c)) (WithStack DeadlineExceeded) in
  defer (Cancel (WithStack Canceled)) (
    req <- NewRequestWithContext timeoutCtx "POST" (Endpoint (cfg c)) body ;;
    let req :=
      if (0 <? Z.of_nat (length (Headers (cfg c))))
      then addHeaders req (Headers (cfg c)) else req in
    let req := setUserAgent req (UserAgent (meta c)) in
    resp <- Client_Do req ;;
    defer BodyClose (ret tt)).

(** The stages of [Send], for stating which of them failed. *)
Definition rendered (c : Client) (entry : NotifEntry) : result string :=
  match msg_New w (meta c) entry with
  | Ok message => RenderJSON w message
  | Err e => Err e
  end.

(** The request [Send] hands to the transport for a rendered [body]. *)
Definition request (c : Client) (body : string) : Request :=
  let req :=
    {| Method := "POST"; URL := Endpoint (cfg c); Body := body; Header := ∅;
       Ctx := WithTimeoutCause (WithCancelCause Background) (Timeout (cfg c))
                (WithStack DeadlineExceeded) |} in
  setUserAgent
    (if (0 <? Z.of_nat (length (Headers (cfg c))))
     then addHeaders req (Headers (cfg c)) else req)
    (UserAgent (meta c)).

(** The requests a run handed to the transport. *)
Definition delivered (t : list Event) : list Request :=
  omap (λ ev, match ev with ClientDo req => Some req | _ => None end) t.
End Send.

End Webhook.

(** ** Concrete collaborators, for running the embedding *)
Module Samples.
Import GoLib.

(** [unicode.ToUpper] on the ASCII letters. *)
Definition upperByte (c : ascii) : ascii :=
  let n := N_of_ascii c in
  if ((97 <=? n) && (n <=? 122))%N then ascii_of_N (n - 32) else c.

(** [strings.Map(unicode.ToUpper, s)] on ASCII strings. *)
Fixpoint upperASCII (s : string) : string :=
  match s with
  | EmptyString => EmptyString
  | String c rest => String (upperByte c) (upperASCII rest)
  end.

(** Stand-ins for the formatting functions; [sizeText] agrees with
    [units.HumanSize] below one thousand bytes. *)
Definition instantText (t : Time) : string := pretty (instant t) +:+ "ns".
Definition sizeText (n : Z) : string := pretty n +:+ "B".
Definition sameText (s : string) : string := s.

Definition at_ (s : Z) : Timestamp := {| seconds := s; nanos := 0 |}.

Definition v1 : Inventory.Manifest :=
  {| Inventory.Tag := "1.0"; Inventory.Created := at_ 100;
     Inventory.Digest := "sha256:aa"; Inventory.Size := 10 |}.
Definition v2 : Inventory.Manifest :=
  {| Inventory.Tag := "2.0"; Inventory.Created := at_ 200;
     Inventory.Digest := "sha256:bb"; Inventory.Size := 20 |}.

Definition alpine : Inventory.ImageListResponse_Image :=
  {| Inventory.Name := "alpine"; Inventory.ManifestsCount := 1;
     Inventory.Latest := v1 |}.
Definition Alpine : Inventory.ImageListResponse_Image :=
  {| Inventory.Name := "Alpine"; Inventory.ManifestsCount := 2;
     Inventory.Latest := v2 |}.
Definition Zebra : Inventory.ImageListResponse_Image :=
  {| Inventory.Name := "Zebra"; Inventory.ManifestsCount := 3;
     Inventory.Latest := v2 |}.

(** A server holding [images]; [inspect] is what it knows of the image
    it is asked about, [removed] and [pruned] what the two deletions
    report, [asked] the answer at the prompt, [marshalError] the error
    of [protojson.Marshal]. *)
Definition server (images : list Inventory.ImageListResponse_Image)
    (inspect removed : list Inventory.Manifest)
    (pruned : list Inventory.ImagePruneResponse_Image)
    (asked : result bool) (marshalError : option error) : Inventory.World :=
  {| Inventory.grpc_NewClient := λ _, Ok tt;
     Inventory.ImageList := Ok images;
     Inventory.ImageInspect := λ name,
       Ok {| Inventory.InspectName := name; Inventory.Manifests := inspect |};
     Inventory.ImageRemove := λ _, Ok removed;
     Inventory.ImagePrune := Ok pruned;
     Inventory.survey_AskOne := λ _, asked;
     Inventory.protojson_Marshal := λ m,
       match marshalError with
       | Some e => (EmptyString, Some e)
       | None => ("{}", None)
       end |}.

Definition authority : string := "127.0.0.1:42286".

Definition list_ (raw : bool) : Inventory.ImageListCmd :=
  {| Inventory.ListRaw := raw; Inventory.ListGRPCAuthority := authority |}.
Definition inspect_ (image : string) (raw : bool) : Inventory.ImageInspectCmd :=
  {| Inventory.InspectImage := image; Inventory.InspectRaw := raw;
     Inventory.InspectGRPCAuthority := authority |}.
Definition remove_ (image : string) : Inventory.ImageRemoveCmd :=
  {| Inventory.RemoveImage := image; Inventory.RemoveGRPCAuthority := authority |}.
Definition prune_ (force : bool) : Inventory.ImagePruneCmd :=
  {| Inventory.Force := force; Inventory.PruneGRPCAuthority := authority |}.

(** [textproto.CanonicalMIMEHeaderKey] on keys made of ASCII letters,
    digits and dashes: upper case at the start and after a dash, lower
    case elsewhere. *)
Definition lowerByte (c : ascii) : ascii :=
  let n := N_of_ascii c in
  if ((65 <=? n) && (n <=? 90))%N then ascii_of_N (n + 32) else c.

Fixpoint canonical (upper : bool) (s : string) : string :=
  match s with
  | EmptyString => EmptyString
  | String c rest =>
      let c' := if upper then upperByte c else lowerByte c in
      String c' (canonical (N_of_ascii c' =? 45)%N rest)
  end.

Definition canonicalKey (s : string) : string := canonical true s.

(** A webhook whose entries and messages are plain strings: the empty
    entry cannot be turned into a message, the message "bad" cannot be
    rendered, the empty endpoint is not a URL, and the remote end answers
    as [x] says. *)
Definition hook (x : Webhook.Exchange) : @Webhook.World string string :=
  {| Webhook.msg_New := λ _ entry,
       if decide (entry = EmptyString) then Err (Plain "no entry") else Ok entry;
     Webhook.RenderJSON := λ message,
       if decide (message = "bad") then Err (Plain "template") else Ok message;
     Webhook.http_NewRequest := λ _ url,
       if decide (url = EmptyString) then Err (Plain "empty url") else Ok tt;
     Webhook.remote := λ _, x |}.

Definition answers (status : Z) (after : Z) : Webhook.Exchange :=
  {| Webhook.latency := after;
     Webhook.reply := Ok {| Webhook.StatusCode := status;
                            Webhook.ResponseBody := EmptyString |} |}.

Definition refuses (after : Z) : Webhook.Exchange :=
  {| Webhook.latency := after;
     Webhook.reply := Err (Plain "connection refused") |}.

(** Ten seconds, and a custom header that names the user agent. *)
Definition client : Webhook.Client :=
  {| Webhook.cfg :=
       {| Webhook.Endpoint := "https://example.org/hook";
          Webhook.Headers := [("user-agent", "custom/1.0"); ("X-Token", "t")];
          Webhook.Timeout := 10000000000 |};
     Webhook.meta := {| Webhook.Name := "diun"; Webhook.UserAgent := "diun/4" |} |}.

End Samples.

(** ** Reading a trace *)
Module Observe.
Import GoLib.

(** The kinds of effect of a command. *)
Definition isRemoteCall (ev : Inventory.Event) : bool :=
  match ev with
  | Inventory.CallImageList | Inventory.CallImageInspect _
  | Inventory.CallImageRemove _ | Inventory.CallImagePrune => true
  | _ => false
  end.

Definition isPrompt (ev : Inventory.Event) : bool :=
  match ev with Inventory.AskOne _ => true | _ => false end.

Definition isOutput (ev : Inventory.Event) : bool :=
  match ev with
  | Inventory.Println _ | Inventory.Render _ _ _ => true
  | _ => false
  end.

Definition isConnClose (ev : Inventory.Event) : bool :=
  match ev with Inventory.ConnClose => true | _ => false end.

Definition remoteCalls (t : list Inventory.Event) : list Inventory.Event :=
  List.filter isRemoteCall t.
Definition prompts (t : list Inventory.Event) : list Inventory.Event :=
  List.filter isPrompt t.
Definition outputs (t : list Inventory.Event) : list Inventory.Event :=
  List.filter isOutput t.
Definition closes (t : list Inventory.Event) : list Inventory.Event :=
  List.filter isConnClose t.

(** The sizes of some manifests, added up without a bound. *)
Definition sumSizes (ms : list Inventory.Manifest) : Z :=
  foldr (λ m acc, Inventory.Size m + acc) 0 ms.

(** All the manifests a prune reports, image after image. *)
Definition prunedManifests (images : list Inventory.ImagePruneResponse_Image)
  : list Inventory.Manifest :=
  flat_map Inventory.PruneManifests images.

(** When a manifest was created, as the [time.Time] made of its
    timestamp holds it. *)
Definition createdAt (m : Inventory.Manifest) : Z :=
  instant (AsTime (Inventory.Created m)).

(** The same outside, except that [ImageInspect] answers with the
    manifests [ms] for whatever image it is asked about. *)
Definition withManifests (w : Inventory.World) (ms : list Inventory.Manifest)
  : Inventory.World :=
  {| Inventory.grpc_NewClient := Inventory.grpc_NewClient w;
     Inventory.ImageList := Inventory.ImageList w;
     Inventory.ImageInspect := λ name,
       Ok {| Inventory.InspectName := name; Inventory.Manifests := ms |};
     Inventory.ImageRemove := Inventory.ImageRemove w;
     Inventory.ImagePrune := Inventory.ImagePrune w;
     Inventory.survey_AskOne := Inventory.survey_AskOne w;
     Inventory.protojson_Marshal := Inventory.protojson_Marshal w |}.

(** The effects of [Send] that release something. *)
Definition isCancel (ev : Webhook.Event) : bool :=
  match ev with Webhook.Cancel _ => true | _ => false end.

Definition isBodyClose (ev : Webhook.Event) : bool :=
  match ev with Webhook.BodyClose => true | _ => false end.

(** The values the configured headers give for the canonical key [k],
    in the order the headers are visited. *)
Definition valuesFor (canon : string → string)
    (headers : list (string * string)) (k : string) : list string :=
  omap (λ '(key, value), if decide (canon key = k) then Some value else None)
       headers.

End Observe.

(** ** More concrete collaborators *)
Module Scenarios.
Import GoLib Samples.

(** A target no client can be made for. *)
Definition unreachable : Inventory.World :=
  {| Inventory.grpc_NewClient := λ _, Err (Plain "bad target");
     Inventory.ImageList := Ok [];
     Inventory.ImageInspect := λ name,
       Ok {| Inventory.InspectName := name; Inventory.Manifests := [] |};
     Inventory.ImageRemove := λ _, Ok [];
     Inventory.ImagePrune := Ok [];
     Inventory.survey_AskOne := λ _, Ok true;
     Inventory.protojson_Marshal := λ _, ("{}", None) |}.

(** A server that knows no image and fails every call but the listing;
    the prompt is answered as [asked] says. *)
Definition broken (asked : result bool) : Inventory.World :=
  {| Inventory.grpc_NewClient := λ _, Ok tt;
     Inventory.ImageList := Err (Plain "unavailable");
     Inventory.ImageInspect := λ _, Err (Plain "not found");
     Inventory.ImageRemove := λ _, Err (Plain "not found");
     Inventory.ImagePrune := Err (Plain "unavailable");
     Inventory.survey_AskOne := λ _, asked;
     Inventory.protojson_Marshal := λ _, ("{}", None) |}.

Definition v3 : Inventory.Manifest :=
  {| Inventory.Tag := "3.0"; Inventory.Created := at_ 300;
     Inventory.Digest := "sha256:cc"; Inventory.Size := 30 |}.


Definition pruned (name : string) (ms : list Inventory.Manifest)
  : Inventory.ImagePruneResponse_Image :=
  {| Inventory.PruneName := name; Inventory.PruneManifests := ms |}.

(** A webhook client with the headers [headers] and the endpoint [url]. *)
Definition clientWith (url : string) (headers : list (string * string))
  : Webhook.Client :=
  {| Webhook.cfg :=
       {| Webhook.Endpoint := url; Webhook.Headers := headers;
          Webhook.Timeout := 10000000000 |};
     Webhook.meta := {| Webhook.Name := "diun"; Webhook.UserAgent := "diun/4" |} |}.

End Scenarios.

(** * Facts about the library models *)
Module GoLibFacts.
Import GoLib.

Section InsertionSortFacts.
Context {A : Type} (less : A → A → bool).

Lemma sink_perm (x : A) (before : list A) : sink less x before ≡ₚ x :: before.
Proof.
  induction before as [|p rest IH]; simpl; [done|].
  destruct (less x p); [|done].
  rewrite IH. apply Permutation_swap.
Qed.

Lemma insertionSort_perm (l : list A) : insertionSort less l ≡ₚ l.
Proof.
  unfold insertionSort. rewrite reverse_Permutation.
  cut (∀ acc, foldl (λ before x, sink less x before) acc l ≡ₚ l ++ acc).
  { intros H. rewrite H. by rewrite app_nil_r. }
  induction l as [|x l IH]; intros acc; simpl; [done|].
  rewrite IH, sink_perm. by rewrite Permutation_middle.
Qed.

Hypothesis Hless : StrictWeakOrder less.

Lemma swo_asym (x y : A) : less x y = true → less y x = false.
Proof.
  intros Hxy. destruct (less y x) eqn:Hyx; [|done].
  pose proof (swo_trans _ Hless _ _ _ Hxy Hyx) as Hxx.
  by rewrite (swo_irrefl _ Hless) in Hxx.
Qed.

Lemma sink_sorted (x : A) (before : list A) :
  StronglySorted (λ a b, less a b = false) before →
  StronglySorted (λ a b, less a b = false) (sink less x before).
Proof.
  induction 1 as [|p rest Hrest IH Hp]; simpl.
  { repeat constructor. }
  destruct (less x p) eqn:Hxp.
  - constructor; [done|].
    rewrite sink_perm. constructor; [by apply swo_asym|done].
  - constructor; [by constructor|].
    constructor; [done|].
    eapply Forall_impl; [exact Hp|].
    intros r Hr. simpl in Hr. by apply (swo_incomp _ Hless x p r).
Qed.

Lemma StronglySorted_reverse (R : relation A) (l : list A) :
  StronglySorted R l → StronglySorted (flip R) (reverse l).
Proof.
  induction 1 as [|x l Hl IH Hx]; [constructor|].
  rewrite reverse_cons. apply StronglySorted_app.
  split_and!; [|done|repeat constructor].
  intros a b Ha Hb. apply list_elem_of_singleton in Hb as ->.
  rewrite elem_of_reverse in Ha. rewrite Forall_forall in Hx. unfold flip. by apply Hx.
Qed.

Lemma insertionSort_sorted (l : list A) :
  StronglySorted (λ x y, less y x = false) (insertionSort less l).
Proof.
  unfold insertionSort.
  apply (StronglySorted_reverse (λ a b, less a b = false)).
  cut (∀ acc, StronglySorted (λ a b, less a b = false) acc →
         StronglySorted (λ a b, less a b = false)
           (foldl (λ before x, sink less x before) acc l)).
  { intros H. apply H. constructor. }
  induction l as [|x l IH]; intros acc Hacc; simpl; [done|].
  apply IH. by apply sink_sorted.
Qed.
End InsertionSortFacts.

(** Go's insertion sort honours the contract of [sort.Slice]. *)
Lemma insertionSort_SortsSlices : SortsSlices (@insertionSort).
Proof.
  split.
  - intros A less l. apply insertionSort_perm.
  - intros A less l Hless. by apply insertionSort_sorted.
Qed.

(** Go's [<] on strings is a strict total order. *)
Lemma string_compare_refl (s : string) : String.compare s s = Eq.
Proof.
  induction s as [|c s IH]; simpl; [done|].
  unfold Ascii.compare. by rewrite N.compare_refl.
Qed.

Lemma string_compare_lt_trans (a b c : string) :
  String.compare a b = Lt → String.compare b c = Lt → String.compare a c = Lt.
Proof.
  revert b c. induction a as [|x a IH]; intros [|y b] [|z c]; simpl; try done.
  unfold Ascii.compare.
  destruct (N.compare_spec (N_of_ascii x) (N_of_ascii y)) as [Hxy|Hxy|Hxy],
           (N.compare_spec (N_of_ascii y) (N_of_ascii z)) as [Hyz|Hyz|Hyz],
           (N.compare_spec (N_of_ascii x) (N_of_ascii z)) as [Hxz|Hxz|Hxz];
    try done; try lia; eauto.
Qed.

Lemma string_ltb_swo : StrictWeakOrder String.ltb.
Proof.
  split; unfold String.ltb.
  - intros x. by rewrite string_compare_refl.
  - intros x y z Hxy Hyz.
    destruct (String.compare x y) eqn:Exy; try done.
    destruct (String.compare y z) eqn:Eyz; try done.
    by rewrite (string_compare_lt_trans x y z).
  - intros x y z Hxy Hyz.
    destruct (String.compare x z) eqn:Exz; try done.
    destruct (String.compare x y) eqn:Exy; try done.
    + apply String.compare_eq_iff in Exy as ->. by rewrite Exz in Hyz.
    + assert (String.compare y x = Lt) as Eyx.
      { rewrite String.compare_antisym, Exy. done. }
      by rewrite (string_compare_lt_trans y x z) in Hyz.
Qed.

Lemma string_not_ltb_leb (a b : string) :
  String.ltb b a = false ↔ String.leb a b = true.
Proof.
  unfold String.ltb, String.leb. rewrite (String.compare_antisym a b).
  destruct (String.compare b a); simpl; split; done.
Qed.

(** A strict weak order on keys is one on the records that carry them. *)
Lemma swo_on_key {A K} (key : A → K) (less : K → K → bool) :
  StrictWeakOrder less → StrictWeakOrder (λ a b, less (key a) (key b)).
Proof.
  intros [Hi Ht Hn]. split; intros; eauto.
Qed.

Lemma wrap64_range n : - 2^63 ≤ wrap64 n < 2^63.
Proof. unfold wrap64. pose proof (Z.mod_pos_bound (n + 2^63) (2^64)). lia. Qed.

Lemma wrap64_id n : - 2^63 ≤ n < 2^63 → wrap64 n = n.
Proof. intros Hn. unfold wrap64. rewrite Z.mod_small; lia. Qed.

Lemma wrap64_add_l a b : wrap64 (wrap64 a + b) = wrap64 (a + b).
Proof.
  unfold wrap64. f_equal.
  replace ((a + 2^63) mod 2^64 - 2^63 + b + 2^63)
    with ((a + 2^63) mod 2^64 + b) by lia.
  rewrite Z.add_mod_idemp_l by lia. f_equal. lia.
Qed.

(** The quotient that truncates, turned into the one that rounds down,
    as [time.Unix] does it. *)
Lemma carry (n : Z) :
  let q := n ÷ 1000000000 in
  let r := n - q * 1000000000 in
  (r < 0 →
   n `div` 1000000000 = q - 1 ∧ n `mod` 1000000000 = r + 1000000000) ∧
  (0 ≤ r → n `div` 1000000000 = q ∧ n `mod` 1000000000 = r).
Proof.
  intros q r.
  pose proof (Z.quot_rem' n 1000000000) as Hqr.
  assert (r = Z.rem n 1000000000) as Hr by (unfold r, q; lia).
  pose proof (Z.rem_bound_abs n 1000000000 ltac:(lia)) as Hb.
  assert (- 1000000000 < r < 1000000000) by lia.
  split; intros Hs.
  - split; symmetry.
    + apply (Z.div_unique n 1000000000 (q - 1) (r + 1000000000)); lia.
    + apply (Z.mod_unique n 1000000000 (q - 1) (r + 1000000000)); lia.
  - split; symmetry.
    + apply (Z.div_unique n 1000000000 q r); lia.
    + apply (Z.mod_unique n 1000000000 q r); lia.
Qed.

(** What [time.Unix] comes to: the nanoseconds are carried into the
    seconds, and the seconds are taken modulo 2^64. *)
Lemma AsTime_spec (x : Timestamp) :
  AsTime x =
    {| sec := wrap64 (seconds x + nanos x `div` 1000000000 + unixToInternal);
       nsec := nanos x `mod` 1000000000 |}.
Proof.
  unfold AsTime, Unix.
  destruct (carry (nanos x)) as [Hneg Hpos]. cbv zeta in Hneg, Hpos.
  destruct ((nanos x <? 0) || (1000000000 <=? nanos x)) eqn:Hout.
  - destruct (Z.ltb_spec (nanos x - nanos x ÷ 1000000000 * 1000000000) 0)
      as [Hrem|Hrem].
    + destruct (Hneg Hrem) as [-> ->].
      rewrite wrap64_add_l.
      replace (wrap64 (seconds x + nanos x ÷ 1000000000) - 1 + unixToInternal)
        with (wrap64 (seconds x + nanos x ÷ 1000000000) + (unixToInternal - 1))
        by lia.
      rewrite wrap64_add_l. f_equal. f_equal. lia.
    + destruct (Hpos Hrem) as [-> ->].
      rewrite !wrap64_add_l. done.
  - apply orb_false_iff in Hout as [Hlo Hhi].
    apply Z.ltb_ge in Hlo. apply Z.leb_gt in Hhi.
    rewrite Z.div_small, Z.mod_small by lia. f_equal. f_equal. lia.
Qed.

(** [After] orders the times by the nanoseconds they hold. *)
Lemma AsTime_nsec (x : Timestamp) : 0 ≤ nsec (AsTime x) < 1000000000.
Proof. rewrite AsTime_spec. simpl. apply Z.mod_pos_bound. lia. Qed.

(** For a timestamp that [time.Time] holds without wrapping around, the
    time is the timestamp, moved from the epoch to year 1. *)
Lemma AsTime_instant (x : Timestamp) :
  representable x →
  instant (AsTime x) = stamp x + unixToInternal * 1000000000.
Proof.
  intros Hx. rewrite AsTime_spec. unfold instant, stamp. simpl.
  rewrite wrap64_id by exact Hx.
  pose proof (Z.div_mod (nanos x) 1000000000 ltac:(lia)). lia.
Qed.

Lemma After_instant (t u : Time) :
  0 ≤ nsec t < 1000000000 → 0 ≤ nsec u < 1000000000 →
  After t u = true ↔ instant u < instant t.
Proof.
  intros Ht Hu. unfold After, instant.
  rewrite orb_true_iff, andb_true_iff, !Z.ltb_lt, Z.eqb_eq. nia.
Qed.

Lemma After_swo : StrictWeakOrder After.
Proof.
  split; unfold After.
  - intros x. rewrite orb_false_iff, andb_false_iff, !Z.ltb_ge. lia.
  - intros x y z.
    rewrite !orb_true_iff, !andb_true_iff, !Z.ltb_lt, !Z.eqb_eq. lia.
  - intros x y z.
    rewrite !orb_false_iff, !andb_false_iff, !Z.ltb_ge, !Z.eqb_neq. lia.
Qed.

Lemma StronglySorted_impl {A} (R1 R2 : relation A) (l : list A) :
  (∀ x y, R1 x y → R2 x y) → StronglySorted R1 l → StronglySorted R2 l.
Proof.
  intros HR. induction 1 as [|x l Hl IH Hx]; constructor; [done|].
  eapply Forall_impl; [exact Hx|]. intros y. apply HR.
Qed.

Lemma NoDup_fmap_eq {A B} (f : A → B) (l : list A) (x y : A) :
  NoDup (f <$> l) → x ∈ l → y ∈ l → f x = f y → x = y.
Proof.
  induction l as [|a l IH]; simpl; intros Hnd Hx Hy Hxy.
  { by apply elem_of_nil in Hx. }
  apply NoDup_cons in Hnd as [Ha Hnd].
  apply elem_of_cons in Hx as [->|Hx]; apply elem_of_cons in Hy as [->|Hy];
    [done| | |by apply IH].
  - destruct Ha. rewrite Hxy. by apply list_elem_of_fmap_2.
  - destruct Ha. rewrite <-Hxy. by apply list_elem_of_fmap_2.
Qed.

End GoLibFacts.

(** * The inventory client *)
Module InventoryFacts.
Import GoLib GoLibFacts Inventory.

(** Membership in a trace that has been computed. *)
Ltac in_trace :=
  intros; rewrite ?elem_of_cons, ?elem_of_nil; intuition congruence.

Section CommandFacts.
Variable sort_Slice : ∀ A, (A → A → bool) → list A → list A.
Variable ToUpper : string → string.
Variable FormatRFC3339 : Time → string.
Variable HumanSize : Z → string.
Variable Pretty : string → string.

Lemma listReport_outcome w raw il :
  outcome (listReport FormatRFC3339 Pretty w raw il) = Ok tt.
Proof.
  unfold listReport. destruct raw; [by destruct (protojson_Marshal w _)|].
  by destruct (_ =? _).
Qed.

Lemma inspectReport_outcome w raw ii :
  outcome (inspectReport FormatRFC3339 Pretty w raw ii) = Ok tt.
Proof.
  unfold inspectReport. destruct raw; [by destruct (protojson_Marshal w _)|done].
Qed.

(** [List], once the connection and the remote call have succeeded. *)
Lemma List_run w s il :
  grpc_NewClient w (ListGRPCAuthority s) = Ok tt →
  ImageList w = Ok il →
  ImageListCmd_Run sort_Slice ToUpper FormatRFC3339 Pretty w s =
    (NewClient (ListGRPCAuthority s) :: CallImageList ::
       trace (listReport FormatRFC3339 Pretty w (ListRaw s)
                (sort_Slice _ (lessName ToUpper) il)) ++ [ConnClose],
     Ok tt).
Proof.
  intros Hdial Hlist.
  pose proof (listReport_outcome w (ListRaw s)
                (sort_Slice _ (lessName ToUpper) il)) as Hout.
  unfold ImageListCmd_Run, connect, defer, bind, emit, answer, trace, outcome in *.
  rewrite Hdial, Hlist. simpl.
  destruct (listReport _ _ _ _ _) as [t r]. simpl in *. by subst.
Qed.

Lemma Inspect_run w s ii :
  grpc_NewClient w (InspectGRPCAuthority s) = Ok tt →
  ImageInspect w (InspectImage s) = Ok ii →
  ImageInspectCmd_Run sort_Slice FormatRFC3339 Pretty w s =
    (NewClient (InspectGRPCAuthority s) :: CallImageInspect (InspectImage s) ::
       trace (inspectReport FormatRFC3339 Pretty w (InspectRaw s)
                {| InspectName := InspectName ii;
                   Manifests := sort_Slice _ lessCreated (Manifests ii) |})
       ++ [ConnClose],
     Ok tt).
Proof.
  intros Hdial Hii.
  pose proof (inspectReport_outcome w (InspectRaw s)
                {| InspectName := InspectName ii;
                   Manifests := sort_Slice _ lessCreated (Manifests ii) |}) as Hout.
  unfold ImageInspectCmd_Run, connect, defer, bind, emit, answer, trace, outcome in *.
  rewrite Hdial, Hii. simpl.
  destruct (inspectReport _ _ _ _ _) as [t r]. simpl in *. by subst.
Qed.

(** ** Prune *)

(** C1 (as amended).  With [force] unset and the connection open, any
    outcome of the prompt other than an explicit yes keeps the client
    from calling the remote [ImagePrune]; a declined prompt returns
    success, a failed prompt returns the error of the prompt. *)
Theorem prune_unconfirmed_makes_no_remote_call w s :
  Force s = false →
  grpc_NewClient w (PruneGRPCAuthority s) = Ok tt →
  survey_AskOne w pruneAllWarning ≠ Ok true →
  (CallImagePrune ∉ trace (ImagePruneCmd_Run FormatRFC3339 HumanSize w s)) ∧
  (outcome (ImagePruneCmd_Run FormatRFC3339 HumanSize w s) =
     match survey_AskOne w pruneAllWarning with
     | Ok _ => Ok tt
     | Err e => Err e
     end).
Proof.
  intros Hforce Hdial Hask.
  unfold ImagePruneCmd_Run, connect, defer, bind, emit, answer, trace, outcome.
  rewrite Hforce, Hdial. simpl.
  destruct (survey_AskOne w pruneAllWarning) as [[|]|e]; simpl.
  - done.
  - split; [in_trace|done].
  - split; [in_trace|done].
Qed.

(** C8.  When the remote prune is reached (forced, or confirmed at the
    prompt), succeeds and reports no removed image, the client prints the
    "nothing to be removed" line, returns success and renders no table. *)
Theorem prune_nothing_removed w s :
  grpc_NewClient w (PruneGRPCAuthority s) = Ok tt →
  Force s = true ∨ survey_AskOne w pruneAllWarning = Ok true →
  ImagePrune w = Ok [] →
  outcome (ImagePruneCmd_Run FormatRFC3339 HumanSize w s) = Ok tt ∧
  CallImagePrune ∈ trace (ImagePruneCmd_Run FormatRFC3339 HumanSize w s) ∧
  Println "Nothing to be removed from the database"
    ∈ trace (ImagePruneCmd_Run FormatRFC3339 HumanSize w s) ∧
  ∀ header rows footer,
    Render header rows footer
      ∉ trace (ImagePruneCmd_Run FormatRFC3339 HumanSize w s).
Proof.
  intros Hdial Hgo Hprune.
  unfold ImagePruneCmd_Run, pruneAndReport, connect, defer, bind, emit, answer,
    trace, outcome.
  rewrite Hdial, Hprune. simpl.
  destruct (Force s) eqn:Hforce; simpl.
  - split_and!; [done|in_trace..].
  - destruct Hgo as [?|Hask]; [done|]. rewrite Hask. simpl.
    split_and!; [done|in_trace..].
Qed.

(** ** Remove *)

(** C9.  Remove has no special case for an empty result: when the remote
    call succeeds with no removed manifest, the client renders a table
    with the header, no row and the footer "0 (0B)", and prints no
    message. *)
Theorem remove_nothing_removed_renders_table w s :
  HumanSize 0 = "0B" →
  grpc_NewClient w (RemoveGRPCAuthority s) = Ok tt →
  ImageRemove w (RemoveImage s) = Ok [] →
  ImageRemoveCmd_Run FormatRFC3339 HumanSize w s =
    ([NewClient (RemoveGRPCAuthority s); CallImageRemove (RemoveImage s);
      Render [Str "Tag"; Str "Created"; Str "Digest"; Str "Size"] []
             [Str "Total"; Str "0 (0B)"];
      ConnClose],
     Ok tt).
Proof.
  intros Hzero Hdial Hremove.
  unfold ImageRemoveCmd_Run, removeLoop, totalCell, connect, defer, bind, emit,
    answer.
  rewrite Hdial, Hremove. simpl. by rewrite Hzero.
Qed.

(** ** Raw output *)

(** C10.  In raw mode, once the remote call has succeeded, List and
    Inspect print the bytes [protojson.Marshal] produced for the sorted
    response, whatever error came with them, and return success. *)
Theorem raw_output_ignores_marshal_error w :
  (∀ s il,
     ListRaw s = true →
     grpc_NewClient w (ListGRPCAuthority s) = Ok tt →
     ImageList w = Ok il →
     ImageListCmd_Run sort_Slice ToUpper FormatRFC3339 Pretty w s =
       ([NewClient (ListGRPCAuthority s); CallImageList;
         Println (Pretty (protojson_Marshal w
           (ImageListResponse (sort_Slice _ (lessName ToUpper) il))).1);
         ConnClose],
        Ok tt)) ∧
  (∀ s ii,
     InspectRaw s = true →
     grpc_NewClient w (InspectGRPCAuthority s) = Ok tt →
     ImageInspect w (InspectImage s) = Ok ii →
     ImageInspectCmd_Run sort_Slice FormatRFC3339 Pretty w s =
       ([NewClient (InspectGRPCAuthority s); CallImageInspect (InspectImage s);
         Println (Pretty (protojson_Marshal w
           (ImageInspectResponse
              {| InspectName := InspectName ii;
                 Manifests := sort_Slice _ lessCreated (Manifests ii) |})).1);
         ConnClose],
        Ok tt)).
Proof.
  split.
  - intros s il Hraw Hdial Hlist. rewrite (List_run w s il Hdial Hlist).
    unfold listReport. rewrite Hraw.
    by destruct (protojson_Marshal w _).
  - intros s ii Hraw Hdial Hii. rewrite (Inspect_run w s ii Hdial Hii).
    unfold inspectReport. rewrite Hraw.
    by destruct (protojson_Marshal w _).
Qed.

(** ** List *)

Lemma lessName_swo : StrictWeakOrder (lessName ToUpper).
Proof. apply (swo_on_key (λ a, ToUpper (Name a))), string_ltb_swo. Qed.

Lemma lessCreated_swo : StrictWeakOrder lessCreated.
Proof. apply (swo_on_key (λ a, AsTime (Created a))), After_swo. Qed.

Hypothesis sort_Slice_spec : SortsSlices sort_Slice.

(** C3 (as amended).  List prints the records of the remote answer, each
    once, in ascending order of their upper-cased names: as the rows of
    the table, or in the marshalled answer in raw mode.  And two runs fed
    the same records in different orders print the same, provided no two
    records have the same upper-cased name. *)
Theorem list_sorted_by_upper_name w s :
  grpc_NewClient w (ListGRPCAuthority s) = Ok tt →
  (∀ il, ∃ out,
     out ≡ₚ il ∧
     StronglySorted
       (λ a b, String.leb (ToUpper (Name a)) (ToUpper (Name b)) = true) out ∧
     ImageListCmd_Run sort_Slice ToUpper FormatRFC3339 Pretty
       (withImageList w il) s =
       ([NewClient (ListGRPCAuthority s); CallImageList;
         if ListRaw s then
           Println (Pretty (protojson_Marshal w (ImageListResponse out)).1)
         else
           match out with
           | [] => Println "No image found in the database"
           | _ :: _ =>
               Render
                 [Str "Name"; Str "Manifests Count"; Str "Latest Tag";
                  Str "Latest Created"; Str "Latest Digest"]
                 (map (λ image,
                         [Str (Name image); Int (ManifestsCount image);
                          Str (Tag (Latest image));
                          Str (FormatRFC3339 (AsTime (Created (Latest image))));
                          Str (Digest (Latest image))])
                      out)
                 [Str "Total"; Int (Z.of_nat (length il))]
           end;
         ConnClose],
        Ok tt)) ∧
  (∀ il1 il2,
     il1 ≡ₚ il2 →
     NoDup ((λ a, ToUpper (Name a)) <$> il1) →
     ImageListCmd_Run sort_Slice ToUpper FormatRFC3339 Pretty
       (withImageList w il1) s
     = ImageListCmd_Run sort_Slice ToUpper FormatRFC3339 Pretty
         (withImageList w il2) s).
Proof.
  intros Hdial.
  assert (∀ il, StronglySorted
            (λ a b, String.leb (ToUpper (Name a)) (ToUpper (Name b)) = true)
            (sort_Slice _ (lessName ToUpper) il)) as Hsorted.
  { intros il.
    eapply StronglySorted_impl;
      [|apply (sort_Slice_sorted _ sort_Slice_spec), lessName_swo].
    intros a b Hab. simpl in Hab. by apply string_not_ltb_leb. }
  split.
  - intros il. exists (sort_Slice _ (lessName ToUpper) il).
    pose proof (sort_Slice_perm _ sort_Slice_spec _ (lessName ToUpper) il)
      as Hperm.
    split_and!; [done|apply Hsorted|].
    rewrite (List_run (withImageList w il) s il) by done.
    unfold listReport. simpl protojson_Marshal.
    destruct (ListRaw s).
    { by destruct (protojson_Marshal w _). }
    rewrite <-(Permutation_length Hperm).
    by destruct (sort_Slice _ (lessName ToUpper) il).
  - intros il1 il2 Hperm Hnodup.
    rewrite (List_run (withImageList w il1) s il1),
            (List_run (withImageList w il2) s il2) by done.
    replace (sort_Slice _ (lessName ToUpper) il2)
      with (sort_Slice _ (lessName ToUpper) il1); [done|].
    eapply StronglySorted_unique_strong; [|apply Hsorted|apply Hsorted|].
    + intros x1 x2 Hx1 Hx2 H12 H21.
      rewrite (sort_Slice_perm _ sort_Slice_spec) in Hx1, Hx2.
      rewrite <-Hperm in Hx2.
      apply (NoDup_fmap_eq (λ a, ToUpper (Name a)) il1); [done..|].
      by apply String.leb_antisym.
    + by rewrite !(sort_Slice_perm _ sort_Slice_spec).
Qed.

(** ** Inspect *)


End CommandFacts.

(** ** The theorems at work on concrete servers *)
Import Samples.

(** A concrete timestamp is one [time.Time] holds. *)
Ltac in_range := vm_compute; split; [discriminate|reflexivity].

(** A declined prompt: no remote call, success. *)
Lemma prune_declined :
  (CallImagePrune ∉
     trace (ImagePruneCmd_Run instantText sizeText
              (server [] [] [] [] (Ok false) None) (prune_ false))) ∧
  outcome (ImagePruneCmd_Run instantText sizeText
             (server [] [] [] [] (Ok false) None) (prune_ false)) = Ok tt.
Proof.
  apply (prune_unconfirmed_makes_no_remote_call instantText sizeText
           (server [] [] [] [] (Ok false) None) (prune_ false));
    [reflexivity|reflexivity|discriminate].
Defined.

(** C1 as stated fails: when the prompt itself fails (the terminal is
    interrupted), [Run] returns that error and not success. *)
Lemma prune_prompt_error_is_returned :
  Force (prune_ false) = false ∧
  outcome (ImagePruneCmd_Run instantText sizeText
             (server [] [] [] [] (Err (Plain "interrupt")) None) (prune_ false))
  = Err (Plain "interrupt") ∧
  outcome (ImagePruneCmd_Run instantText sizeText
             (server [] [] [] [] (Err (Plain "interrupt")) None) (prune_ false))
  ≠ Ok tt.
Proof. split_and!; [reflexivity|reflexivity|discriminate]. Qed.

Lemma prune_forced_nothing_removed :
  outcome (ImagePruneCmd_Run instantText sizeText
             (server [] [] [] [] (Ok false) None) (prune_ true)) = Ok tt ∧
  CallImagePrune ∈
    trace (ImagePruneCmd_Run instantText sizeText
             (server [] [] [] [] (Ok false) None) (prune_ true)) ∧
  Println "Nothing to be removed from the database" ∈
    trace (ImagePruneCmd_Run instantText sizeText
             (server [] [] [] [] (Ok false) None) (prune_ true)) ∧
  ∀ header rows footer,
    Render header rows footer ∉
      trace (ImagePruneCmd_Run instantText sizeText
               (server [] [] [] [] (Ok false) None) (prune_ true)).
Proof.
  apply (prune_nothing_removed instantText sizeText
           (server [] [] [] [] (Ok false) None) (prune_ true));
    [reflexivity|left; reflexivity|reflexivity].
Defined.

Lemma remove_of_nothing :
  ImageRemoveCmd_Run instantText sizeText
    (server [] [] [] [] (Ok false) None) (remove_ "alpine") =
    ([NewClient authority; CallImageRemove "alpine";
      Render [Str "Tag"; Str "Created"; Str "Digest"; Str "Size"] []
             [Str "Total"; Str "0 (0B)"];
      ConnClose],
     Ok tt).
Proof.
  apply (remove_nothing_removed_renders_table instantText sizeText
           (server [] [] [] [] (Ok false) None) (remove_ "alpine"));
    [vm_compute; reflexivity|reflexivity|reflexivity].
Defined.

(** The marshaller fails and hands back no byte: an empty line is
    printed and the command succeeds. *)
Lemma raw_list_with_failing_marshal :
  ImageListCmd_Run (@insertionSort) upperASCII instantText sameText
    (server [Zebra; alpine] [] [] [] (Ok false) (Some (Plain "marshal")))
    (list_ true) =
    ([NewClient authority; CallImageList; Println EmptyString; ConnClose], Ok tt).
Proof.
  apply (proj1 (raw_output_ignores_marshal_error (@insertionSort) upperASCII
                  instantText sameText
                  (server [Zebra; alpine] [] [] [] (Ok false)
                     (Some (Plain "marshal"))))
           (list_ true) [Zebra; alpine]);
    reflexivity.
Defined.

(** C3 as stated fails: with two names that differ only by case, the
    order of the output follows the order of the remote answer.  The sort
    is the one Go runs on a slice of two. *)
Lemma list_order_follows_remote_order :
  [alpine; Alpine] ≡ₚ [Alpine; alpine] ∧
  ImageListCmd_Run (@insertionSort) upperASCII instantText sameText
    (server [alpine; Alpine] [] [] [] (Ok false) None) (list_ false) ≠
  ImageListCmd_Run (@insertionSort) upperASCII instantText sameText
    (server [Alpine; alpine] [] [] [] (Ok false) None) (list_ false).
Proof. split; [apply Permutation_swap|vm_compute; discriminate]. Qed.

Lemma list_alpine_zebra :
  ImageListCmd_Run (@insertionSort) upperASCII instantText sameText
    (withImageList (server [] [] [] [] (Ok false) None) [Zebra; alpine])
    (list_ false) =
  ImageListCmd_Run (@insertionSort) upperASCII instantText sameText
    (withImageList (server [] [] [] [] (Ok false) None) [alpine; Zebra])
    (list_ false).
Proof.
  apply (proj2 (list_sorted_by_upper_name (@insertionSort) upperASCII
                  instantText sameText insertionSort_SortsSlices
                  (server [] [] [] [] (Ok false) None) (list_ false)
                  eq_refl)).
  - apply Permutation_swap.
  - refine (bool_decide_unpack _ _). vm_compute. exact I.
Defined.



End InventoryFacts.

(** * The webhook notifier *)
Module WebhookFacts.
Import GoLib GoLibFacts Webhook.

Section SendFacts.
Context {NotifEntry MsgClient : Type}.
(** [textproto.CanonicalMIMEHeaderKey] *)
Variable canon : string → string.
Variable w : @World NotifEntry MsgClient.


(** [Send] stops at a rendering failure before doing anything. *)
Lemma Send_not_rendered c entry e :
  rendered w c entry = Err e → Send canon w c entry = ([], Err e).
Proof.
  unfold rendered, Send, bind, answer.
  destruct (msg_New w (meta c) entry) as [message|e']; [|congruence].
  intros ->. done.
Qed.

(** [Send] from a rendered body on. *)
Lemma Send_rendered c entry body :
  rendered w c entry = Ok body →
  Send canon w c entry =
    match http_NewRequest w "POST" (Endpoint (cfg c)) with
    | Err e => ([Cancel (WithStack Canceled)], Err e)
    | Ok _ =>
        match outcome (Client_Do w (request canon c body)) with
        | Ok _ =>
            ([ClientDo (request canon c body); BodyClose; Cancel (WithStack Canceled)],
             Ok tt)
        | Err e =>
            ([ClientDo (request canon c body); Cancel (WithStack Canceled)], Err e)
        end
    end.
Proof.
  unfold rendered, Send, NewRequestWithContext, bind, answer, defer, ret.
  destruct (msg_New w (meta c) entry) as [message|e']; [|congruence].
  intros ->.
  destruct (http_NewRequest w "POST" (Endpoint (cfg c))) as [[]|e]; [|done].
  change (setUserAgent _ _ _) with (request canon c body).
  unfold Client_Do, bind, emit, fail, ret, outcome.
  destruct (Deadline _) as [[d cause]|]; simpl;
    repeat (destruct (_ <=? _) || destruct (reply _)); done.
Qed.

Lemma request_User_Agent c body :
  Header (request canon c body) !! canon "User-Agent"
  = Some [UserAgent (meta c)].
Proof. unfold request, setUserAgent, Header_Set. simpl. apply lookup_insert_eq. Qed.

(** Adding headers touches nothing but the header. *)
Lemma addHeaders_Ctx req headers :
  Ctx (addHeaders canon req headers) = Ctx req.
Proof.
  revert req. induction headers as [|[key value] headers IH]; intros req; simpl;
    [done|].
  by rewrite IH.
Qed.

Lemma request_Deadline c body :
  Deadline (Ctx (request canon c body))
  = Some (Timeout (cfg c), WithStack DeadlineExceeded).
Proof.
  unfold request, setUserAgent. simpl.
  destruct (0 <? _); [rewrite addHeaders_Ctx|]; done.
Qed.

(** What [Send] hands to the transport: nothing, or the one request. *)
Lemma Send_delivered c entry req :
  req ∈ delivered (trace (Send canon w c entry)) →
  ∃ body, rendered w c entry = Ok body ∧
          http_NewRequest w "POST" (Endpoint (cfg c)) = Ok tt ∧
          req = request canon c body.
Proof.
  destruct (rendered w c entry) as [body|e] eqn:Hr.
  - rewrite (Send_rendered c entry body Hr).
    destruct (http_NewRequest w "POST" (Endpoint (cfg c))) as [[]|e].
    + intros Hreq. exists body. split_and!; [done..|].
      destruct (outcome (Client_Do w (request canon c body))); simpl in Hreq;
        by apply list_elem_of_singleton in Hreq.
    + simpl. by intros ?%elem_of_nil.
  - rewrite (Send_not_rendered c entry e Hr). simpl. by intros ?%elem_of_nil.
Qed.

(** C2.  Whatever the custom headers are, every request [Send] hands to
    the transport carries the configured user agent as its only
    [User-Agent] value, also when a custom header has that name. *)
Theorem send_sets_configured_user_agent c entry req :
  req ∈ delivered (trace (Send canon w c entry)) →
  Header_Get canon (Header req) "User-Agent"
    = UserAgent (meta c) ∧
  Header req !! canon "User-Agent" = Some [UserAgent (meta c)].
Proof.
  intros (body & _ & _ & ->)%Send_delivered.
  unfold Header_Get. by rewrite request_User_Agent.
Qed.

(** C5.  When the event does not render ([msg.New] or [RenderJSON]
    fails), [Send] returns that error and does nothing else: no request
    reaches the transport. *)
Theorem send_render_failure_sends_nothing c entry e :
  rendered w c entry = Err e →
  outcome (Send canon w c entry) = Err e ∧
  trace (Send canon w c entry) = [] ∧
  delivered (trace (Send canon w c entry)) = [].
Proof. intros Hr. by rewrite (Send_not_rendered c entry e Hr). Qed.

(** C4.  When the transport ends the exchange of the request with a
    response, [Send] returns success whatever the status of the response;
    and [Send] returns an error exactly when rendering fails, or building
    the request fails, or the transport fails, the error being that of
    the failing step. *)
Theorem send_fails_only_when_a_step_fails c entry :
  (∀ req resp,
     req ∈ delivered (trace (Send canon w c entry)) →
     outcome (Client_Do w req) = Ok resp →
     outcome (Send canon w c entry) = Ok tt) ∧
  (∀ e,
     outcome (Send canon w c entry) = Err e ↔
     rendered w c entry = Err e ∨
     ∃ body,
       rendered w c entry = Ok body ∧
       (http_NewRequest w "POST" (Endpoint (cfg c)) = Err e ∨
        http_NewRequest w "POST" (Endpoint (cfg c)) = Ok tt ∧
        outcome (Client_Do w (request canon c body)) = Err e)).
Proof.
  split.
  - intros req resp (body & Hr & Hn & ->)%Send_delivered Hdo.
    by rewrite (Send_rendered c entry body Hr), Hn, Hdo.
  - intros e. destruct (rendered w c entry) as [body|e'] eqn:Hr.
    + rewrite (Send_rendered c entry body Hr).
      destruct (http_NewRequest w "POST" (Endpoint (cfg c))) as [[]|e1].
      * destruct (outcome (Client_Do w (request canon c body))) as [resp|e2] eqn:Hdo;
          simpl; split.
        -- done.
        -- intros [?|(body' & ? & [?|[_ ?]])]; simplify_eq.
           congruence.
        -- intros [= ->]. right. exists body. split; [done|]. by right.
        -- intros [?|(body' & ? & [?|[_ ?]])]; simplify_eq.
           congruence.
      * simpl; split.
        -- intros [= ->]. right. exists body. split; [done|]. by left.
        -- intros [?|(body' & ? & [?|[? _]])]; simplify_eq. done.
    + rewrite (Send_not_rendered c entry e' Hr). simpl. split.
      * intros [= ->]. by left.
      * intros [?|(body' & ? & _)]; simplify_eq. done.
Qed.

(** C7.  An exchange that has not ended when the configured timeout has
    run out makes [Send] return an error that [errors.Is] recognises as
    [context.DeadlineExceeded]; a transport failure of another kind that
    comes before the timeout yields an error that is not recognised as
    such. *)
Theorem send_reports_deadline_exceeded c entry body :
  rendered w c entry = Ok body →
  http_NewRequest w "POST" (Endpoint (cfg c)) = Ok tt →
  (Timeout (cfg c) ≤ latency (remote w (request canon c body)) →
   ∃ e, outcome (Send canon w c entry) = Err e ∧ IsDeadlineExceeded e = true) ∧
  (latency (remote w (request canon c body)) < Timeout (cfg c) →
   ∀ g, reply (remote w (request canon c body)) = Err g →
        IsDeadlineExceeded g = false →
        ∃ e, outcome (Send canon w c entry) = Err e ∧ IsDeadlineExceeded e = false).
Proof.
  intros Hr Hn. rewrite (Send_rendered c entry body Hr), Hn.
  unfold Client_Do, bind, emit, fail, ret, outcome.
  rewrite request_Deadline. simpl. split.
  - intros Hlate. apply Z.leb_le in Hlate. rewrite Hlate. simpl. eauto.
  - intros Hearly g Hg Hgeneric. apply Z.leb_gt in Hearly.
    rewrite Hearly, Hg. simpl. eauto.
Qed.

End SendFacts.

(** ** The theorems at work on a concrete webhook *)
Import Samples.

(** The custom header [user-agent] does not survive. *)
Lemma send_overrides_custom_user_agent :
  Header_Get canonicalKey
    (Header (Webhook.request canonicalKey client "new image")) "User-Agent"
    = "diun/4" ∧
  Header (Webhook.request canonicalKey client "new image")
    !! canonicalKey "User-Agent" = Some ["diun/4"].
Proof.
  apply (send_sets_configured_user_agent canonicalKey (hook (answers 200 5))
           client "new image").
  vm_compute. left.
Defined.

Lemma send_unrenderable_entry :
  outcome (Webhook.Send canonicalKey (hook (answers 200 5)) client "bad")
    = Err (Plain "template") ∧
  trace (Webhook.Send canonicalKey (hook (answers 200 5)) client "bad") = [] ∧
  delivered (trace (Webhook.Send canonicalKey (hook (answers 200 5)) client "bad"))
    = [].
Proof.
  apply (send_render_failure_sends_nothing canonicalKey (hook (answers 200 5))
           client "bad" (Plain "template")).
  reflexivity.
Defined.

(** A response with status 500 is a success of [Send]. *)
Lemma send_ignores_status_500 :
  outcome (Webhook.Send canonicalKey (hook (answers 500 5)) client "new image")
    = Ok tt.
Proof.
  apply (proj1 (send_fails_only_when_a_step_fails canonicalKey
                  (hook (answers 500 5)) client "new image")
           (Webhook.request canonicalKey client "new image")
           {| StatusCode := 500; ResponseBody := EmptyString |}).
  - vm_compute. left.
  - reflexivity.
Defined.

(** The remote end needs eleven seconds and the timeout is ten. *)
Lemma send_times_out :
  ∃ e,
    outcome (Webhook.Send canonicalKey (hook (answers 200 11000000000)) client
               "new image") = Err e ∧
    IsDeadlineExceeded e = true.
Proof.
  apply (proj1 (send_reports_deadline_exceeded canonicalKey
                  (hook (answers 200 11000000000)) client "new image"
                  "new image" eq_refl eq_refl)).
  vm_compute. discriminate.
Defined.

End WebhookFacts.

(** * More on the inventory client *)
Module InventoryMore.
Import GoLib GoLibFacts Inventory InventoryFacts Observe.

Section Shapes.
Variable sort_Slice : ∀ A, (A → A → bool) → list A → list A.
Variable ToUpper : string → string.
Variable FormatRFC3339 : Time → string.
Variable HumanSize : Z → string.
Variable Pretty : string → string.

(** The reports print one thing and succeed. *)
Lemma listReport_shape w raw il :
  ∃ o, isOutput o = true ∧
       listReport FormatRFC3339 Pretty w raw il = ([o], Ok tt).
Proof.
  unfold listReport, emit. destruct raw.
  - destruct (protojson_Marshal w _). eexists. by split; [|reflexivity].
  - destruct (_ =? _); eexists; by split; [|reflexivity].
Qed.

Lemma inspectReport_shape w raw ii :
  ∃ o, isOutput o = true ∧
       inspectReport FormatRFC3339 Pretty w raw ii = ([o], Ok tt).
Proof.
  unfold inspectReport, emit. destruct raw.
  - destruct (protojson_Marshal w _). eexists. by split; [|reflexivity].
  - eexists. by split; [|reflexivity].
Qed.

(** Every path through [ImageListCmd.Run]. *)
Lemma List_shape w s :
  ImageListCmd_Run sort_Slice ToUpper FormatRFC3339 Pretty w s =
    match grpc_NewClient w (ListGRPCAuthority s) with
    | Err e => ([NewClient (ListGRPCAuthority s)], Err e)
    | Ok _ =>
        match ImageList w with
        | Err e =>
            ([NewClient (ListGRPCAuthority s); CallImageList; ConnClose], Err e)
        | Ok il =>
            (NewClient (ListGRPCAuthority s) :: CallImageList ::
               trace (listReport FormatRFC3339 Pretty w (ListRaw s)
                        (sort_Slice _ (lessName ToUpper) il)) ++ [ConnClose],
             Ok tt)
        end
    end.
Proof.
  destruct (grpc_NewClient w (ListGRPCAuthority s)) as [[]|e] eqn:Hdial.
  - destruct (ImageList w) as [il|e] eqn:Hlist; [by apply List_run|].
    unfold ImageListCmd_Run, connect, defer, bind, emit, answer.
    by rewrite Hdial, Hlist.
  - unfold ImageListCmd_Run, connect, defer, bind, emit, answer.
    by rewrite Hdial.
Qed.

(** Every path through [ImageInspectCmd.Run]. *)
Lemma Inspect_shape w s :
  ImageInspectCmd_Run sort_Slice FormatRFC3339 Pretty w s =
    match grpc_NewClient w (InspectGRPCAuthority s) with
    | Err e => ([NewClient (InspectGRPCAuthority s)], Err e)
    | Ok _ =>
        match ImageInspect w (InspectImage s) with
        | Err e =>
            ([NewClient (InspectGRPCAuthority s);
              CallImageInspect (InspectImage s); ConnClose], Err e)
        | Ok ii =>
            (NewClient (InspectGRPCAuthority s) ::
               CallImageInspect (InspectImage s) ::
               trace (inspectReport FormatRFC3339 Pretty w (InspectRaw s)
                        {| InspectName := InspectName ii;
                           Manifests :=
                             sort_Slice _ lessCreated (Manifests ii) |})
               ++ [ConnClose],
             Ok tt)
        end
    end.
Proof.
  destruct (grpc_NewClient w (InspectGRPCAuthority s)) as [[]|e] eqn:Hdial.
  - destruct (ImageInspect w (InspectImage s)) as [ii|e] eqn:Hii;
      [by apply Inspect_run|].
    unfold ImageInspectCmd_Run, connect, defer, bind, emit, answer.
    by rewrite Hdial, Hii.
  - unfold ImageInspectCmd_Run, connect, defer, bind, emit, answer.
    by rewrite Hdial.
Qed.

(** Every path through [ImageRemoveCmd.Run]. *)
Lemma Remove_shape w s :
  ImageRemoveCmd_Run FormatRFC3339 HumanSize w s =
    match grpc_NewClient w (RemoveGRPCAuthority s) with
    | Err e => ([NewClient (RemoveGRPCAuthority s)], Err e)
    | Ok _ =>
        match ImageRemove w (RemoveImage s) with
        | Err e =>
            ([NewClient (RemoveGRPCAuthority s);
              CallImageRemove (RemoveImage s); ConnClose], Err e)
        | Ok removed =>
            ([NewClient (RemoveGRPCAuthority s);
              CallImageRemove (RemoveImage s);
              Render [Str "Tag"; Str "Created"; Str "Digest"; Str "Size"]
                (removeLoop FormatRFC3339 HumanSize removed).1
                [Str "Total";
                 totalCell HumanSize (Z.of_nat (length removed))
                   (removeLoop FormatRFC3339 HumanSize removed).2];
              ConnClose],
             Ok tt)
        end
    end.
Proof.
  unfold ImageRemoveCmd_Run, connect, defer, bind, emit, answer.
  destruct (grpc_NewClient w (RemoveGRPCAuthority s)) as [[]|e]; [|done].
  destruct (ImageRemove w (RemoveImage s)) as [removed|e]; [|done].
  simpl. by destruct (removeLoop _ _ removed).
Qed.

(** Every path through the part of [ImagePruneCmd.Run] that follows the
    confirmation. *)
Lemma pruneAndReport_shape w :
  pruneAndReport FormatRFC3339 HumanSize w =
    match ImagePrune w with
    | Err e => ([CallImagePrune], Err e)
    | Ok [] =>
        ([CallImagePrune; Println "Nothing to be removed from the database"],
         Ok tt)
    | Ok removed =>
        ([CallImagePrune;
          Render [Str "Tag"; Str "Created"; Str "Digest"; Str "Size"]
            (pruneLoop FormatRFC3339 HumanSize removed).1.1
            [Str "Total";
             totalCell HumanSize (pruneLoop FormatRFC3339 HumanSize removed).2
               (pruneLoop FormatRFC3339 HumanSize removed).1.2]],
         Ok tt)
    end.
Proof.
  unfold pruneAndReport, bind, emit, answer.
  destruct (ImagePrune w) as [[|image removed]|e]; [done| |done].
  simpl (_ ++ _). cbv beta iota.
  replace (Z.of_nat (length (image :: removed)) =? 0) with false
    by (symmetry; apply Z.eqb_neq; simpl length; lia).
  by destruct (pruneLoop _ _ (image :: removed)) as [[rows size] count].
Qed.

(** Every path through [ImagePruneCmd.Run]. *)
Lemma Prune_shape w s :
  ImagePruneCmd_Run FormatRFC3339 HumanSize w s =
    match grpc_NewClient w (PruneGRPCAuthority s) with
    | Err e => ([NewClient (PruneGRPCAuthority s)], Err e)
    | Ok _ =>
        if Force s then
          (NewClient (PruneGRPCAuthority s) ::
             trace (pruneAndReport FormatRFC3339 HumanSize w) ++ [ConnClose],
           outcome (pruneAndReport FormatRFC3339 HumanSize w))
        else
          match survey_AskOne w pruneAllWarning with
          | Err e =>
              ([NewClient (PruneGRPCAuthority s); AskOne pruneAllWarning;
                ConnClose], Err e)
          | Ok false =>
              ([NewClient (PruneGRPCAuthority s); AskOne pruneAllWarning;
                ConnClose], Ok tt)
          | Ok true =>
              (NewClient (PruneGRPCAuthority s) :: AskOne pruneAllWarning ::
                 trace (pruneAndReport FormatRFC3339 HumanSize w)
                 ++ [ConnClose],
               outcome (pruneAndReport FormatRFC3339 HumanSize w))
          end
    end.
Proof.
  unfold ImagePruneCmd_Run, connect, defer, bind, emit, answer, trace, outcome.
  destruct (grpc_NewClient w (PruneGRPCAuthority s)) as [[]|e]; [|done].
  destruct (Force s); simpl.
  - by destruct (pruneAndReport _ _ w).
  - destruct (survey_AskOne w pruneAllWarning) as [[|]|e]; simpl; [|done..].
    by destruct (pruneAndReport _ _ w).
Qed.

(** ** The loops that fill the tables *)

(** Adding sizes up in an [int64], one after the other, gives the sum
    modulo 2^64. *)
Lemma int64_sum (ms : list Manifest) (acc : Z) :
  - 2^63 ≤ acc < 2^63 →
  foldl (λ total m, wrap64 (total + Size m)) acc ms
  = wrap64 (acc + sumSizes ms).
Proof.
  revert acc. induction ms as [|m ms IH]; intros acc Hacc; simpl.
  - rewrite Z.add_0_r. by rewrite wrap64_id.
  - rewrite IH by apply wrap64_range.
    rewrite wrap64_add_l. f_equal. lia.
Qed.

Lemma rowLoop (ms : list Manifest) (rows : list (list Cell)) (acc : Z) :
  foldl (λ '(rows, totalSize) image,
           (rows ++ [removedRow FormatRFC3339 HumanSize image],
            wrap64 (totalSize + Size image)))
        (rows, acc) ms
  = (rows ++ map (removedRow FormatRFC3339 HumanSize) ms,
     foldl (λ total m, wrap64 (total + Size m)) acc ms).
Proof.
  revert rows acc. induction ms as [|m ms IH]; intros rows acc; simpl.
  - by rewrite app_nil_r.
  - rewrite IH. by rewrite <-app_assoc.
Qed.

Lemma removeLoop_spec (ms : list Manifest) :
  removeLoop FormatRFC3339 HumanSize ms
  = (map (removedRow FormatRFC3339 HumanSize) ms, wrap64 (sumSizes ms)).
Proof.
  unfold removeLoop. rewrite rowLoop. simpl. f_equal.
  rewrite int64_sum by lia. done.
Qed.

Lemma sumSizes_app (l1 l2 : list Manifest) :
  sumSizes (l1 ++ l2) = sumSizes l1 + sumSizes l2.
Proof. induction l1 as [|m l1 IH]; simpl; [done|]. rewrite IH. lia. Qed.

Lemma pruneLoop_from (images : list ImagePruneResponse_Image)
    (rows : list (list Cell)) (size count : Z) :
  - 2^63 ≤ size < 2^63 → - 2^63 ≤ count < 2^63 →
  foldl (λ '(rows, totalSize, totalManifest) image,
           let '(rows, totalSize) :=
             foldl (λ '(rows, totalSize) manifest,
                      (rows ++ [removedRow FormatRFC3339 HumanSize manifest],
                       wrap64 (totalSize + Size manifest)))
                   (rows, totalSize) (PruneManifests image) in
           (rows, totalSize,
            wrap64 (totalManifest + Z.of_nat (length (PruneManifests image)))))
        (rows, size, count) images
  = (rows ++ map (removedRow FormatRFC3339 HumanSize) (prunedManifests images),
     wrap64 (size + sumSizes (prunedManifests images)),
     wrap64 (count + Z.of_nat (length (prunedManifests images)))).
Proof.
  revert rows size count.
  induction images as [|image images IH]; intros rows size count Hs Hc; simpl.
  - rewrite app_nil_r, !Z.add_0_r. by rewrite !wrap64_id.
  - rewrite rowLoop, int64_sum by done.
    rewrite IH by apply wrap64_range.
    rewrite map_app, <-app_assoc, sumSizes_app, length_app, !wrap64_add_l.
    f_equal; [f_equal|]; apply (f_equal wrap64); lia.
Qed.

Lemma pruneLoop_spec (images : list ImagePruneResponse_Image) :
  pruneLoop FormatRFC3339 HumanSize images
  = (map (removedRow FormatRFC3339 HumanSize) (prunedManifests images),
     wrap64 (sumSizes (prunedManifests images)),
     wrap64 (Z.of_nat (length (prunedManifests images)))).
Proof. unfold pruneLoop. by rewrite pruneLoop_from by lia. Qed.

(** ** Failures *)

(** X1.  When no gRPC client can be made for the target, each of the
    four commands returns that error at once: nothing is called, asked,
    printed or closed. *)
Theorem no_client_no_effect w e :
  (∀ s, grpc_NewClient w (ListGRPCAuthority s) = Err e →
        ImageListCmd_Run sort_Slice ToUpper FormatRFC3339 Pretty w s
        = ([NewClient (ListGRPCAuthority s)], Err e)) ∧
  (∀ s, grpc_NewClient w (InspectGRPCAuthority s) = Err e →
        ImageInspectCmd_Run sort_Slice FormatRFC3339 Pretty w s
        = ([NewClient (InspectGRPCAuthority s)], Err e)) ∧
  (∀ s, grpc_NewClient w (RemoveGRPCAuthority s) = Err e →
        ImageRemoveCmd_Run FormatRFC3339 HumanSize w s
        = ([NewClient (RemoveGRPCAuthority s)], Err e)) ∧
  (∀ s, grpc_NewClient w (PruneGRPCAuthority s) = Err e →
        ImagePruneCmd_Run FormatRFC3339 HumanSize w s
        = ([NewClient (PruneGRPCAuthority s)], Err e)).
Proof.
  split_and!; intros s Hdial.
  - by rewrite List_shape, Hdial.
  - by rewrite Inspect_shape, Hdial.
  - by rewrite Remove_shape, Hdial.
  - by rewrite Prune_shape, Hdial.
Qed.

(** X2.  When the remote procedure fails, the command returns the error
    of the server as it is, prints nothing and closes the connection.
    For Prune this is so on the paths that reach the server: forced, or
    confirmed at the prompt. *)
Theorem remote_error_is_returned_unchanged w e :
  (∀ s, grpc_NewClient w (ListGRPCAuthority s) = Ok tt →
        ImageList w = Err e →
        ImageListCmd_Run sort_Slice ToUpper FormatRFC3339 Pretty w s
        = ([NewClient (ListGRPCAuthority s); CallImageList; ConnClose],
           Err e)) ∧
  (∀ s, grpc_NewClient w (InspectGRPCAuthority s) = Ok tt →
        ImageInspect w (InspectImage s) = Err e →
        ImageInspectCmd_Run sort_Slice FormatRFC3339 Pretty w s
        = ([NewClient (InspectGRPCAuthority s);
            CallImageInspect (InspectImage s); ConnClose], Err e)) ∧
  (∀ s, grpc_NewClient w (RemoveGRPCAuthority s) = Ok tt →
        ImageRemove w (RemoveImage s) = Err e →
        ImageRemoveCmd_Run FormatRFC3339 HumanSize w s
        = ([NewClient (RemoveGRPCAuthority s);
            CallImageRemove (RemoveImage s); ConnClose], Err e)) ∧
  (∀ s, grpc_NewClient w (PruneGRPCAuthority s) = Ok tt →
        Force s = true ∨ survey_AskOne w pruneAllWarning = Ok true →
        ImagePrune w = Err e →
        outcome (ImagePruneCmd_Run FormatRFC3339 HumanSize w s) = Err e ∧
        outputs (trace (ImagePruneCmd_Run FormatRFC3339 HumanSize w s)) = [] ∧
        last (trace (ImagePruneCmd_Run FormatRFC3339 HumanSize w s))
        = Some ConnClose).
Proof.
  split_and!.
  - intros s Hdial Hcall. by rewrite List_shape, Hdial, Hcall.
  - intros s Hdial Hcall. by rewrite Inspect_shape, Hdial, Hcall.
  - intros s Hdial Hcall. by rewrite Remove_shape, Hdial, Hcall.
  - intros s Hdial Hgo Hcall.
    rewrite Prune_shape, Hdial, pruneAndReport_shape, Hcall.
    destruct (Force s); [done|].
    destruct Hgo as [?|Hask]; [done|]. by rewrite Hask.
Qed.

(** ** The connection *)

(** X3.  A command that got its client closes the connection exactly
    once, as the last thing it does, on every path: success, remote
    error, failed or declined prompt.  Without a client nothing is
    closed. *)
Theorem connection_is_closed_once w :
  (∀ s,
     closes (trace (ImageListCmd_Run sort_Slice ToUpper FormatRFC3339 Pretty w s))
     = match grpc_NewClient w (ListGRPCAuthority s) with
       | Ok _ => [ConnClose] | Err _ => [] end ∧
     (grpc_NewClient w (ListGRPCAuthority s) = Ok tt →
      last (trace (ImageListCmd_Run sort_Slice ToUpper FormatRFC3339 Pretty w s))
      = Some ConnClose)) ∧
  (∀ s,
     closes (trace (ImageInspectCmd_Run sort_Slice FormatRFC3339 Pretty w s))
     = match grpc_NewClient w (InspectGRPCAuthority s) with
       | Ok _ => [ConnClose] | Err _ => [] end ∧
     (grpc_NewClient w (InspectGRPCAuthority s) = Ok tt →
      last (trace (ImageInspectCmd_Run sort_Slice FormatRFC3339 Pretty w s))
      = Some ConnClose)) ∧
  (∀ s,
     closes (trace (ImageRemoveCmd_Run FormatRFC3339 HumanSize w s))
     = match grpc_NewClient w (RemoveGRPCAuthority s) with
       | Ok _ => [ConnClose] | Err _ => [] end ∧
     (grpc_NewClient w (RemoveGRPCAuthority s) = Ok tt →
      last (trace (ImageRemoveCmd_Run FormatRFC3339 HumanSize w s))
      = Some ConnClose)) ∧
  (∀ s,
     closes (trace (ImagePruneCmd_Run FormatRFC3339 HumanSize w s))
     = match grpc_NewClient w (PruneGRPCAuthority s) with
       | Ok _ => [ConnClose] | Err _ => [] end ∧
     (grpc_NewClient w (PruneGRPCAuthority s) = Ok tt →
      last (trace (ImagePruneCmd_Run FormatRFC3339 HumanSize w s))
      = Some ConnClose)).
Proof.
  split_and!; intros s.
  - rewrite List_shape.
    destruct (grpc_NewClient w _) as [[]|?]; [|done].
    destruct (ImageList w) as [il|?]; [|done].
    destruct (listReport_shape w (ListRaw s)
                (sort_Slice _ (lessName ToUpper) il)) as (o & Ho & ->).
    by destruct o.
  - rewrite Inspect_shape.
    destruct (grpc_NewClient w _) as [[]|?]; [|done].
    destruct (ImageInspect w _) as [ii|?]; [|done].
    destruct (inspectReport_shape w (InspectRaw s)
                {| InspectName := InspectName ii;
                   Manifests := sort_Slice _ lessCreated (Manifests ii) |})
      as (o & Ho & ->).
    by destruct o.
  - rewrite Remove_shape.
    destruct (grpc_NewClient w _) as [[]|?]; [|done].
    by destruct (ImageRemove w _).
  - rewrite Prune_shape, pruneAndReport_shape.
    destruct (grpc_NewClient w _) as [[]|?]; [|done].
    destruct (Force s); [by destruct (ImagePrune w) as [[|??]|?]|].
    destruct (survey_AskOne w pruneAllWarning) as [[|]|?]; [|done..].
    by destruct (ImagePrune w) as [[|??]|?].
Qed.

(** ** The remote calls *)

(** X4.  List, Inspect and Remove call the server exactly once when they
    have a client, and not at all otherwise; Inspect and Remove ask for
    the image named on the command line. *)
Theorem one_remote_call_per_command w :
  (∀ s,
     remoteCalls
       (trace (ImageListCmd_Run sort_Slice ToUpper FormatRFC3339 Pretty w s))
     = match grpc_NewClient w (ListGRPCAuthority s) with
       | Ok _ => [CallImageList] | Err _ => [] end) ∧
  (∀ s,
     remoteCalls
       (trace (ImageInspectCmd_Run sort_Slice FormatRFC3339 Pretty w s))
     = match grpc_NewClient w (InspectGRPCAuthority s) with
       | Ok _ => [CallImageInspect (InspectImage s)] | Err _ => [] end) ∧
  (∀ s,
     remoteCalls (trace (ImageRemoveCmd_Run FormatRFC3339 HumanSize w s))
     = match grpc_NewClient w (RemoveGRPCAuthority s) with
       | Ok _ => [CallImageRemove (RemoveImage s)] | Err _ => [] end).
Proof.
  split_and!; intros s.
  - rewrite List_shape.
    destruct (grpc_NewClient w _) as [[]|?]; [|done].
    destruct (ImageList w) as [il|?]; [|done].
    destruct (listReport_shape w (ListRaw s)
                (sort_Slice _ (lessName ToUpper) il)) as (o & Ho & ->).
    by destruct o.
  - rewrite Inspect_shape.
    destruct (grpc_NewClient w _) as [[]|?]; [|done].
    destruct (ImageInspect w _) as [ii|?]; [|done].
    destruct (inspectReport_shape w (InspectRaw s)
                {| InspectName := InspectName ii;
                   Manifests := sort_Slice _ lessCreated (Manifests ii) |})
      as (o & Ho & ->).
    by destruct o.
  - rewrite Remove_shape.
    destruct (grpc_NewClient w _) as [[]|?]; [|done].
    by destruct (ImageRemove w _).
Qed.

(** X5.  Prune calls the server exactly when it has a client and is
    either forced or confirmed at the prompt, and then only once. *)
Theorem prune_calls_iff_forced_or_confirmed w s :
  (CallImagePrune ∈ trace (ImagePruneCmd_Run FormatRFC3339 HumanSize w s) ↔
   grpc_NewClient w (PruneGRPCAuthority s) = Ok tt ∧
   (Force s = true ∨ survey_AskOne w pruneAllWarning = Ok true)) ∧
  (remoteCalls (trace (ImagePruneCmd_Run FormatRFC3339 HumanSize w s)) = [] ∨
   remoteCalls (trace (ImagePruneCmd_Run FormatRFC3339 HumanSize w s))
   = [CallImagePrune]).
Proof.
  rewrite Prune_shape, pruneAndReport_shape.
  destruct (grpc_NewClient w _) as [[]|?].
  - destruct (Force s).
    + destruct (ImagePrune w) as [[|??]|?]; (split; [unfold trace; simpl; in_trace|by right]).
    + destruct (survey_AskOne w pruneAllWarning) as [[|]|?].
      * destruct (ImagePrune w) as [[|??]|?]; (split; [unfold trace; simpl; in_trace|by right]).
      * split; [unfold trace; simpl; in_trace|by left].
      * split; [unfold trace; simpl; in_trace|by left].
  - split; [unfold trace; simpl; in_trace|by left].
Qed.

(** ** The prompt *)

(** X6.  A forced Prune never asks.  Otherwise, once it has a client,
    Prune asks exactly once, with the fixed warning, before anything is
    sent to the server. *)
Theorem prune_prompts_once_unless_forced w s :
  (Force s = true →
   prompts (trace (ImagePruneCmd_Run FormatRFC3339 HumanSize w s)) = []) ∧
  (Force s = false →
   grpc_NewClient w (PruneGRPCAuthority s) = Ok tt →
   ∃ t,
     trace (ImagePruneCmd_Run FormatRFC3339 HumanSize w s)
     = NewClient (PruneGRPCAuthority s) :: AskOne pruneAllWarning :: t ∧
     prompts t = []).
Proof.
  rewrite Prune_shape, pruneAndReport_shape. split.
  - intros ->. destruct (grpc_NewClient w _) as [[]|?]; [|done].
    by destruct (ImagePrune w) as [[|??]|?].
  - intros -> ->.
    destruct (survey_AskOne w pruneAllWarning) as [[|]|?];
      [|by eexists..].
    destruct (ImagePrune w) as [[|??]|?]; by eexists.
Qed.

(** X7.  List, Inspect and Remove never ask for confirmation. *)
Theorem only_prune_prompts w :
  (∀ s,
     prompts
       (trace (ImageListCmd_Run sort_Slice ToUpper FormatRFC3339 Pretty w s))
     = []) ∧
  (∀ s,
     prompts (trace (ImageInspectCmd_Run sort_Slice FormatRFC3339 Pretty w s))
     = []) ∧
  (∀ s,
     prompts (trace (ImageRemoveCmd_Run FormatRFC3339 HumanSize w s)) = []).
Proof.
  split_and!; intros s.
  - rewrite List_shape.
    destruct (grpc_NewClient w _) as [[]|?]; [|done].
    destruct (ImageList w) as [il|?]; [|done].
    destruct (listReport_shape w (ListRaw s)
                (sort_Slice _ (lessName ToUpper) il)) as (o & Ho & ->).
    by destruct o.
  - rewrite Inspect_shape.
    destruct (grpc_NewClient w _) as [[]|?]; [|done].
    destruct (ImageInspect w _) as [ii|?]; [|done].
    destruct (inspectReport_shape w (InspectRaw s)
                {| InspectName := InspectName ii;
                   Manifests := sort_Slice _ lessCreated (Manifests ii) |})
      as (o & Ho & ->).
    by destruct o.
  - rewrite Remove_shape.
    destruct (grpc_NewClient w _) as [[]|?]; [|done].
    by destruct (ImageRemove w _).
Qed.

(** ** What is printed *)

(** X8.  List, Inspect and Remove print exactly one thing (a line or a
    table) when they succeed and nothing when they fail.  Prune prints
    nothing when it fails, and when it succeeds it prints one thing
    unless the prompt was declined, in which case it prints nothing. *)
Theorem output_follows_outcome w :
  (∀ s,
     length (outputs
       (trace (ImageListCmd_Run sort_Slice ToUpper FormatRFC3339 Pretty w s)))
     = match outcome
               (ImageListCmd_Run sort_Slice ToUpper FormatRFC3339 Pretty w s)
       with Ok _ => 1%nat | Err _ => 0%nat end) ∧
  (∀ s,
     length (outputs
       (trace (ImageInspectCmd_Run sort_Slice FormatRFC3339 Pretty w s)))
     = match outcome (ImageInspectCmd_Run sort_Slice FormatRFC3339 Pretty w s)
       with Ok _ => 1%nat | Err _ => 0%nat end) ∧
  (∀ s,
     length (outputs (trace (ImageRemoveCmd_Run FormatRFC3339 HumanSize w s)))
     = match outcome (ImageRemoveCmd_Run FormatRFC3339 HumanSize w s)
       with Ok _ => 1%nat | Err _ => 0%nat end) ∧
  (∀ s,
     length (outputs (trace (ImagePruneCmd_Run FormatRFC3339 HumanSize w s)))
     = match outcome (ImagePruneCmd_Run FormatRFC3339 HumanSize w s) with
       | Err _ => 0%nat
       | Ok _ =>
           if Force s then 1%nat
           else match survey_AskOne w pruneAllWarning with
                | Ok false => 0%nat
                | _ => 1%nat
                end
       end).
Proof.
  split_and!; intros s.
  - rewrite List_shape.
    destruct (grpc_NewClient w _) as [[]|?]; [|done].
    destruct (ImageList w) as [il|?]; [|done].
    destruct (listReport_shape w (ListRaw s)
                (sort_Slice _ (lessName ToUpper) il)) as (o & Ho & ->).
    by destruct o.
  - rewrite Inspect_shape.
    destruct (grpc_NewClient w _) as [[]|?]; [|done].
    destruct (ImageInspect w _) as [ii|?]; [|done].
    destruct (inspectReport_shape w (InspectRaw s)
                {| InspectName := InspectName ii;
                   Manifests := sort_Slice _ lessCreated (Manifests ii) |})
      as (o & Ho & ->).
    by destruct o.
  - rewrite Remove_shape.
    destruct (grpc_NewClient w _) as [[]|?]; [|done].
    by destruct (ImageRemove w _).
  - rewrite Prune_shape, pruneAndReport_shape.
    destruct (grpc_NewClient w _) as [[]|?]; [|done].
    destruct (Force s); [by destruct (ImagePrune w) as [[|??]|?]|].
    destruct (survey_AskOne w pruneAllWarning) as [[|]|?]; [|done..].
    by destruct (ImagePrune w) as [[|??]|?].
Qed.

(** ** The tables of Remove and Prune *)

(** X9.  Remove lists the removed manifests in the order the server
    reports them (it sorts nothing), one row each; the footer counts
    them and gives the sum of their sizes as an [int64], which is the
    true sum whenever that fits. *)
Theorem remove_table_lists_what_was_removed w s ms :
  grpc_NewClient w (RemoveGRPCAuthority s) = Ok tt →
  ImageRemove w (RemoveImage s) = Ok ms →
  ∃ total,
    ImageRemoveCmd_Run FormatRFC3339 HumanSize w s =
      ([NewClient (RemoveGRPCAuthority s); CallImageRemove (RemoveImage s);
        Render [Str "Tag"; Str "Created"; Str "Digest"; Str "Size"]
          (map (removedRow FormatRFC3339 HumanSize) ms)
          [Str "Total"; totalCell HumanSize (Z.of_nat (length ms)) total];
        ConnClose],
       Ok tt) ∧
    total = wrap64 (sumSizes ms) ∧
    (- 2^63 ≤ sumSizes ms < 2^63 → total = sumSizes ms).
Proof.
  intros Hdial Hcall. exists (wrap64 (sumSizes ms)).
  split_and!; [|done|apply wrap64_id].
  by rewrite Remove_shape, Hdial, Hcall, removeLoop_spec.
Qed.

(** X10.  When the server reports removed images, Prune prints one
    table with a row for every manifest of every image, image after
    image; the footer counts the manifests of all images and adds up
    their sizes, both as [int64]. *)
Theorem prune_table_lists_every_manifest w s images :
  grpc_NewClient w (PruneGRPCAuthority s) = Ok tt →
  Force s = true ∨ survey_AskOne w pruneAllWarning = Ok true →
  ImagePrune w = Ok images →
  images ≠ [] →
  ∃ count total,
    outcome (ImagePruneCmd_Run FormatRFC3339 HumanSize w s) = Ok tt ∧
    outputs (trace (ImagePruneCmd_Run FormatRFC3339 HumanSize w s)) =
      [Render [Str "Tag"; Str "Created"; Str "Digest"; Str "Size"]
         (map (removedRow FormatRFC3339 HumanSize) (prunedManifests images))
         [Str "Total"; totalCell HumanSize count total]] ∧
    count = wrap64 (Z.of_nat (length (prunedManifests images))) ∧
    total = wrap64 (sumSizes (prunedManifests images)) ∧
    (Z.of_nat (length (prunedManifests images)) < 2^63 →
     count = Z.of_nat (length (prunedManifests images))) ∧
    (- 2^63 ≤ sumSizes (prunedManifests images) < 2^63 →
     total = sumSizes (prunedManifests images)).
Proof.
  intros Hdial Hgo Hcall Hne.
  exists (wrap64 (Z.of_nat (length (prunedManifests images)))),
         (wrap64 (sumSizes (prunedManifests images))).
  split_and!; [..|done|done|intros; apply wrap64_id; lia|apply wrap64_id].
  - rewrite Prune_shape, Hdial, pruneAndReport_shape, Hcall.
    destruct images as [|image images]; [done|].
    destruct (Force s); [done|].
    destruct Hgo as [?|Hask]; [done|]. by rewrite Hask.
  - rewrite Prune_shape, Hdial, pruneAndReport_shape, Hcall.
    destruct images as [|image images]; [done|].
    rewrite pruneLoop_spec.
    destruct (Force s); [done|].
    destruct Hgo as [?|Hask]; [done|]. by rewrite Hask.
Qed.

(** X11.  The "nothing to be removed" line is for an answer without
    images only.  When the server reports images none of which has a
    manifest, Prune prints a table without rows whose footer reads
    "0 (0B)". *)
Theorem prune_of_empty_images_renders_empty_table w s images :
  HumanSize 0 = "0B" →
  grpc_NewClient w (PruneGRPCAuthority s) = Ok tt →
  Force s = true ∨ survey_AskOne w pruneAllWarning = Ok true →
  ImagePrune w = Ok images →
  images ≠ [] →
  Forall (λ image, PruneManifests image = []) images →
  outputs (trace (ImagePruneCmd_Run FormatRFC3339 HumanSize w s)) =
    [Render [Str "Tag"; Str "Created"; Str "Digest"; Str "Size"] []
       [Str "Total"; Str "0 (0B)"]].
Proof.
  intros Hzero Hdial Hgo Hcall Hne Hempty.
  assert (prunedManifests images = []) as Hnone.
  { clear -Hempty. induction Hempty as [|image images Himage _ IH]; [done|].
    unfold prunedManifests in *. simpl. by rewrite Himage, IH. }
  rewrite Prune_shape, Hdial, pruneAndReport_shape, Hcall.
  destruct images as [|image images]; [done|].
  rewrite pruneLoop_spec, Hnone. unfold totalCell. simpl.
  replace (wrap64 0) with 0 by done. rewrite Hzero.
  destruct (Force s); [done|].
  destruct Hgo as [?|Hask]; [done|]. by rewrite Hask.
Qed.

(** ** The comparisons and the sort *)

(** X12.  Both comparisons handed to [sort.Slice] are strict weak
    orders, as [sort.Slice] requires, whatever [unicode.ToUpper] does
    and whatever the timestamps are; and on timestamps [time.Time] holds
    without wrapping around, the one of Inspect puts a manifest first
    exactly when it was created later. *)
Theorem comparisons_are_strict_weak_orders :
  StrictWeakOrder (lessName ToUpper) ∧
  StrictWeakOrder lessCreated ∧
  ∀ a b,
    representable (Created a) → representable (Created b) →
    (lessCreated a b = true ↔ stamp (Created b) < stamp (Created a)).
Proof.
  split_and!; [apply lessName_swo|apply lessCreated_swo|].
  intros a b Ha Hb. unfold lessCreated.
  rewrite After_instant by apply AsTime_nsec.
  rewrite !AsTime_instant by done. lia.
Qed.

Hypothesis sort_Slice_spec : SortsSlices sort_Slice.

Lemma sort_Slice_nil {A} (less : A → A → bool) : sort_Slice A less [] = [].
Proof.
  apply Permutation_nil_r. apply (sort_Slice_perm _ sort_Slice_spec).
Qed.

Lemma sort_Slice_length {A} (less : A → A → bool) (l : list A) :
  length (sort_Slice A less l) = length l.
Proof. by rewrite (sort_Slice_perm _ sort_Slice_spec). Qed.

(** X13.  When the server knows no image, List prints the line "No image
    found in the database" and no table; in raw mode it prints the
    marshalled empty answer instead. *)
Theorem list_of_nothing w s :
  grpc_NewClient w (ListGRPCAuthority s) = Ok tt →
  ImageList w = Ok [] →
  ImageListCmd_Run sort_Slice ToUpper FormatRFC3339 Pretty w s =
    ([NewClient (ListGRPCAuthority s); CallImageList;
      Println (if ListRaw s
               then Pretty (protojson_Marshal w (ImageListResponse [])).1
               else "No image found in the database");
      ConnClose],
     Ok tt).
Proof.
  intros Hdial Hlist. rewrite List_shape, Hdial, Hlist, sort_Slice_nil.
  unfold listReport. destruct (ListRaw s); [|done].
  by destruct (protojson_Marshal w _).
Qed.

(** X14.  For a server that knows some images, List in tabular mode
    prints one table with exactly one row for each image of the answer,
    and the total in the footer is the number of images. *)
Theorem list_table_has_a_row_per_image w s il :
  grpc_NewClient w (ListGRPCAuthority s) = Ok tt →
  ImageList w = Ok il →
  il ≠ [] →
  ListRaw s = false →
  ∃ out,
    out ≡ₚ il ∧
    length (map (listRow FormatRFC3339) out) = length il ∧
    ImageListCmd_Run sort_Slice ToUpper FormatRFC3339 Pretty w s =
      ([NewClient (ListGRPCAuthority s); CallImageList;
        Render [Str "Name"; Str "Manifests Count"; Str "Latest Tag";
                Str "Latest Created"; Str "Latest Digest"]
          (map (listRow FormatRFC3339) out)
          [Str "Total"; Int (Z.of_nat (length il))];
        ConnClose],
       Ok tt).
Proof.
  intros Hdial Hlist Hne Hraw.
  exists (sort_Slice _ (lessName ToUpper) il).
  split_and!; [apply (sort_Slice_perm _ sort_Slice_spec)| |].
  - by rewrite length_map, sort_Slice_length.
  - rewrite List_shape, Hdial, Hlist. unfold listReport.
    rewrite Hraw, sort_Slice_length.
    replace (Z.of_nat (length il) =? 0) with false; [done|].
    symmetry. apply Z.eqb_neq. destruct il; [done|]. simpl length. lia.
Qed.

(** X15.  Inspect has no special case for an image without manifests:
    in tabular mode it prints a table without rows and the total 0. *)
Theorem inspect_of_nothing_renders_table w s ii :
  grpc_NewClient w (InspectGRPCAuthority s) = Ok tt →
  ImageInspect w (InspectImage s) = Ok ii →
  Manifests ii = [] →
  InspectRaw s = false →
  ImageInspectCmd_Run sort_Slice FormatRFC3339 Pretty w s =
    ([NewClient (InspectGRPCAuthority s); CallImageInspect (InspectImage s);
      Render [Str "Tag"; Str "Created"; Str "Digest"] []
        [Str "Total"; Int 0];
      ConnClose],
     Ok tt).
Proof.
  intros Hdial Hcall Hnone Hraw.
  rewrite Inspect_shape, Hdial, Hcall, Hnone, sort_Slice_nil.
  unfold inspectReport. by rewrite Hraw.
Qed.

(** Timestamps [time.Time] holds without wrapping around are told
    apart by the times made of them. *)
Lemma createdAt_NoDup (ms : list Manifest) :
  Forall (λ m, representable (Created m)) ms →
  NoDup ((λ m, stamp (Created m)) <$> ms) →
  NoDup (createdAt <$> ms).
Proof.
  induction 1 as [|m ms Hm Hms IH]; simpl; [constructor|].
  rewrite !NoDup_cons. intros [Hnew Hnd]. split; [|by apply IH].
  intros (m' & Heq & Hin)%list_elem_of_fmap. apply Hnew.
  apply list_elem_of_fmap. exists m'. split; [|done].
  rewrite Forall_forall in Hms. unfold createdAt in Heq.
  rewrite !AsTime_instant in Heq by auto. lia.
Qed.

(** X16.  What Inspect prints does not depend on the order in which the
    server sends the manifests, provided no two of them have the same
    creation time as [time.Time] holds it; which is so when the
    timestamps differ and [time.Time] holds them without wrapping
    around. *)
Theorem inspect_independent_of_remote_order w s ms1 ms2 :
  ms1 ≡ₚ ms2 →
  NoDup (createdAt <$> ms1) ∨
  Forall (λ m, representable (Created m)) ms1 ∧
  NoDup ((λ m, stamp (Created m)) <$> ms1) →
  ImageInspectCmd_Run sort_Slice FormatRFC3339 Pretty (withManifests w ms1) s
  = ImageInspectCmd_Run sort_Slice FormatRFC3339 Pretty (withManifests w ms2) s.
Proof.
  intros Hperm Hdistinct.
  assert (NoDup (createdAt <$> ms1)) as Hnodup.
  { destruct Hdistinct as [?|[??]]; [done|by apply createdAt_NoDup]. }
  rewrite !Inspect_shape. simpl.
  destruct (grpc_NewClient w (InspectGRPCAuthority s)) as [[]|e]; [|done].
  replace (sort_Slice _ lessCreated ms2) with (sort_Slice _ lessCreated ms1);
    [done|].
  eapply StronglySorted_unique_strong;
    [|apply (sort_Slice_sorted _ sort_Slice_spec), lessCreated_swo
     |apply (sort_Slice_sorted _ sort_Slice_spec), lessCreated_swo|].
  - intros x1 x2 Hx1 Hx2 H12 H21. simpl in H12, H21.
    rewrite (sort_Slice_perm _ sort_Slice_spec) in Hx1, Hx2.
    rewrite <-Hperm in Hx2.
    apply (NoDup_fmap_eq createdAt ms1); [done..|].
    unfold lessCreated, createdAt in *.
    destruct (Z.lt_trichotomy (instant (AsTime (Created x1)))
                              (instant (AsTime (Created x2))))
      as [Hlt|[Heq|Hlt]]; [|done|];
      apply After_instant in Hlt; try apply AsTime_nsec; congruence.
  - by rewrite !(sort_Slice_perm _ sort_Slice_spec).
Qed.

End Shapes.

(** ** The theorems at work on concrete servers *)
Import Samples Scenarios.

Lemma list_without_client :
  ImageListCmd_Run (@insertionSort) upperASCII instantText sameText
    unreachable (list_ false)
  = ([NewClient authority], Err (Plain "bad target")).
Proof.
  apply (proj1 (no_client_no_effect (@insertionSort) upperASCII instantText
                  sizeText sameText unreachable (Plain "bad target"))
           (list_ false)).
  reflexivity.
Defined.

Lemma remove_unknown_image :
  ImageRemoveCmd_Run instantText sizeText (broken (Ok true)) (remove_ "ghost")
  = ([NewClient authority; CallImageRemove "ghost"; ConnClose],
     Err (Plain "not found")).
Proof.
  apply (proj1 (proj2 (proj2
           (remote_error_is_returned_unchanged (@insertionSort) upperASCII
              instantText sizeText sameText (broken (Ok true))
              (Plain "not found"))))
           (remove_ "ghost")); reflexivity.
Defined.

Lemma declined_prune_closes_connection :
  closes (trace (ImagePruneCmd_Run instantText sizeText
                   (server [] [] [] [] (Ok false) None) (prune_ false)))
  = [ConnClose] ∧
  last (trace (ImagePruneCmd_Run instantText sizeText
                 (server [] [] [] [] (Ok false) None) (prune_ false)))
  = Some ConnClose.
Proof.
  destruct (proj2 (proj2 (proj2
              (connection_is_closed_once (@insertionSort) upperASCII
                 instantText sizeText sameText
                 (server [] [] [] [] (Ok false) None))))
              (prune_ false)) as [Honce Hlast].
  split; [exact Honce|exact (Hlast eq_refl)].
Defined.

Lemma inspect_calls_once :
  remoteCalls
    (trace (ImageInspectCmd_Run (@insertionSort) instantText sameText
              (server [] [v1] [] [] (Ok false) None) (inspect_ "alpine" true)))
  = [CallImageInspect "alpine"].
Proof.
  exact (proj1 (proj2
           (one_remote_call_per_command (@insertionSort) upperASCII
              instantText sizeText sameText
              (server [] [v1] [] [] (Ok false) None)))
           (inspect_ "alpine" true)).
Defined.

Lemma confirmed_prune_calls :
  CallImagePrune ∈
    trace (ImagePruneCmd_Run instantText sizeText
             (server [] [] [] [] (Ok true) None) (prune_ false)).
Proof.
  apply (proj2 (proj1
           (prune_calls_iff_forced_or_confirmed instantText sizeText
              (server [] [] [] [] (Ok true) None) (prune_ false)))).
  split; [reflexivity|right; reflexivity].
Defined.

Lemma unforced_prune_asks_first :
  ∃ t,
    trace (ImagePruneCmd_Run instantText sizeText
             (server [] [] [] [] (Ok true) None) (prune_ false))
    = NewClient authority :: AskOne pruneAllWarning :: t ∧
    prompts t = [].
Proof.
  apply (proj2 (prune_prompts_once_unless_forced instantText sizeText
                  (server [] [] [] [] (Ok true) None) (prune_ false)));
    reflexivity.
Defined.

Lemma remove_does_not_ask :
  prompts (trace (ImageRemoveCmd_Run instantText sizeText
                    (server [] [] [v1] [] (Ok false) None) (remove_ "alpine")))
  = [].
Proof.
  exact (proj2 (proj2
           (only_prune_prompts (@insertionSort) upperASCII instantText
              sizeText sameText (server [] [] [v1] [] (Ok false) None)))
           (remove_ "alpine")).
Defined.

Lemma failed_list_prints_nothing :
  length (outputs
    (trace (ImageListCmd_Run (@insertionSort) upperASCII instantText sameText
              (broken (Ok true)) (list_ false)))) = 0%nat.
Proof.
  exact (proj1
           (output_follows_outcome (@insertionSort) upperASCII instantText
              sizeText sameText (broken (Ok true)))
           (list_ false)).
Defined.

Lemma remove_two_manifests :
  ∃ total,
    ImageRemoveCmd_Run instantText sizeText
      (server [] [] [v2; v1] [] (Ok false) None) (remove_ "alpine") =
      ([NewClient authority; CallImageRemove "alpine";
        Render [Str "Tag"; Str "Created"; Str "Digest"; Str "Size"]
          (map (removedRow instantText sizeText) [v2; v1])
          [Str "Total"; totalCell sizeText (Z.of_nat (length [v2; v1])) total];
        ConnClose],
       Ok tt) ∧
    total = wrap64 (sumSizes [v2; v1]) ∧
    (- 2^63 ≤ sumSizes [v2; v1] < 2^63 → total = sumSizes [v2; v1]).
Proof.
  apply (remove_table_lists_what_was_removed instantText sizeText
           (server [] [] [v2; v1] [] (Ok false) None) (remove_ "alpine")
           [v2; v1]); reflexivity.
Defined.

Lemma prune_three_images :
  ∃ count total,
    outcome (ImagePruneCmd_Run instantText sizeText
               (server [] [] []
                  [pruned "a" [v1; v2]; pruned "b" []; pruned "c" [v3]]
                  (Ok false) None) (prune_ true)) = Ok tt ∧
    outputs (trace (ImagePruneCmd_Run instantText sizeText
               (server [] [] []
                  [pruned "a" [v1; v2]; pruned "b" []; pruned "c" [v3]]
                  (Ok false) None) (prune_ true))) =
      [Render [Str "Tag"; Str "Created"; Str "Digest"; Str "Size"]
         (map (removedRow instantText sizeText)
            (prunedManifests
               [pruned "a" [v1; v2]; pruned "b" []; pruned "c" [v3]]))
         [Str "Total"; totalCell sizeText count total]] ∧
    count = wrap64 (Z.of_nat (length (prunedManifests
              [pruned "a" [v1; v2]; pruned "b" []; pruned "c" [v3]]))) ∧
    total = wrap64 (sumSizes (prunedManifests
              [pruned "a" [v1; v2]; pruned "b" []; pruned "c" [v3]])) ∧
    (Z.of_nat (length (prunedManifests
       [pruned "a" [v1; v2]; pruned "b" []; pruned "c" [v3]])) < 2^63 →
     count = Z.of_nat (length (prunedManifests
       [pruned "a" [v1; v2]; pruned "b" []; pruned "c" [v3]]))) ∧
    (- 2^63 ≤ sumSizes (prunedManifests
       [pruned "a" [v1; v2]; pruned "b" []; pruned "c" [v3]]) < 2^63 →
     total = sumSizes (prunedManifests
       [pruned "a" [v1; v2]; pruned "b" []; pruned "c" [v3]])).
Proof.
  apply (prune_table_lists_every_manifest instantText sizeText
           (server [] [] []
              [pruned "a" [v1; v2]; pruned "b" []; pruned "c" [v3]]
              (Ok false) None) (prune_ true)
           [pruned "a" [v1; v2]; pruned "b" []; pruned "c" [v3]]);
    [reflexivity|left; reflexivity|reflexivity|discriminate].
Defined.

Lemma prune_two_empty_images :
  outputs (trace (ImagePruneCmd_Run instantText sizeText
             (server [] [] [] [pruned "a" []; pruned "b" []] (Ok false) None)
             (prune_ true))) =
    [Render [Str "Tag"; Str "Created"; Str "Digest"; Str "Size"] []
       [Str "Total"; Str "0 (0B)"]].
Proof.
  apply (prune_of_empty_images_renders_empty_table instantText sizeText
           (server [] [] [] [pruned "a" []; pruned "b" []] (Ok false) None)
           (prune_ true) [pruned "a" []; pruned "b" []]);
    [vm_compute; reflexivity|reflexivity|left; reflexivity|reflexivity
    |discriminate|repeat constructor].
Defined.

Lemma later_manifest_first :
  lessCreated v2 v1 = true ↔ stamp (Created v1) < stamp (Created v2).
Proof.
  apply (proj2 (proj2 (comparisons_are_strict_weak_orders upperASCII)) v2 v1);
    in_range.
Defined.

Lemma list_empty_database :
  ImageListCmd_Run (@insertionSort) upperASCII instantText sameText
    (server [] [] [] [] (Ok false) None) (list_ false) =
    ([NewClient authority; CallImageList;
      Println "No image found in the database"; ConnClose],
     Ok tt).
Proof.
  apply (list_of_nothing (@insertionSort) upperASCII instantText sameText
           insertionSort_SortsSlices
           (server [] [] [] [] (Ok false) None) (list_ false)); reflexivity.
Defined.

Lemma list_two_images :
  ∃ out,
    out ≡ₚ [Zebra; alpine] ∧
    length (map (listRow instantText) out) = length [Zebra; alpine] ∧
    ImageListCmd_Run (@insertionSort) upperASCII instantText sameText
      (server [Zebra; alpine] [] [] [] (Ok false) None) (list_ false) =
      ([NewClient authority; CallImageList;
        Render [Str "Name"; Str "Manifests Count"; Str "Latest Tag";
                Str "Latest Created"; Str "Latest Digest"]
          (map (listRow instantText) out)
          [Str "Total"; Int (Z.of_nat (length [Zebra; alpine]))];
        ConnClose],
       Ok tt).
Proof.
  apply (list_table_has_a_row_per_image (@insertionSort) upperASCII
           instantText sameText insertionSort_SortsSlices
           (server [Zebra; alpine] [] [] [] (Ok false) None) (list_ false)
           [Zebra; alpine]);
    [reflexivity|reflexivity|discriminate|reflexivity].
Defined.

Lemma inspect_image_without_manifests :
  ImageInspectCmd_Run (@insertionSort) instantText sameText
    (server [] [] [] [] (Ok false) None) (inspect_ "alpine" false) =
    ([NewClient authority; CallImageInspect "alpine";
      Render [Str "Tag"; Str "Created"; Str "Digest"] [] [Str "Total"; Int 0];
      ConnClose],
     Ok tt).
Proof.
  apply (inspect_of_nothing_renders_table (@insertionSort) instantText
           sameText insertionSort_SortsSlices
           (server [] [] [] [] (Ok false) None) (inspect_ "alpine" false)
           {| InspectName := "alpine"; Manifests := [] |}); reflexivity.
Defined.

Lemma inspect_two_orders :
  ImageInspectCmd_Run (@insertionSort) instantText sameText
    (withManifests (server [] [] [] [] (Ok false) None) [v1; v2; v3])
    (inspect_ "alpine" false)
  = ImageInspectCmd_Run (@insertionSort) instantText sameText
      (withManifests (server [] [] [] [] (Ok false) None) [v3; v1; v2])
      (inspect_ "alpine" false).
Proof.
  apply (inspect_independent_of_remote_order (@insertionSort) instantText
           sameText insertionSort_SortsSlices
           (server [] [] [] [] (Ok false) None) (inspect_ "alpine" false)
           [v1; v2; v3] [v3; v1; v2]).
  - symmetry. apply (Permutation_cons_append [v1; v2] v3).
  - right. split.
    + repeat (apply Forall_cons_2; [in_range|]). apply Forall_nil_2.
    + refine (bool_decide_unpack _ _). vm_compute. exact I.
Defined.

End InventoryMore.

(** * More on the webhook notifier *)
Module WebhookMore.
Import GoLib GoLibFacts Webhook WebhookFacts Observe.

Section SendMore.
Context {NotifEntry MsgClient : Type}.
(** [textproto.CanonicalMIMEHeaderKey] *)
Variable canon : string → string.
Variable w : @World NotifEntry MsgClient.

(** Adding headers touches nothing but the header. *)
Lemma addHeaders_fields req headers :
  Method (addHeaders canon req headers) = Method req ∧
  URL (addHeaders canon req headers) = URL req ∧
  Body (addHeaders canon req headers) = Body req.
Proof.
  revert req. induction headers as [|[key value] headers IH]; intros req; simpl;
    [done|].
  destruct (IH {| Method := Method req; URL := URL req; Body := Body req;
                  Header := Header_Add canon (Header req) key value;
                  Ctx := Ctx req |}) as (-> & -> & ->).
  done.
Qed.

Lemma valuesFor_cons key value headers k :
  valuesFor canon ((key, value) :: headers) k =
    if decide (canon key = k) then value :: valuesFor canon headers k
    else valuesFor canon headers k.
Proof. unfold valuesFor. simpl. by destruct (decide (canon key = k)). Qed.

(** The values under a key after the headers have been added: what was
    there, followed by the configured values for that key. *)
Lemma addHeaders_lookup req headers k :
  Header (addHeaders canon req headers) !! k =
    match valuesFor canon headers k with
    | [] => Header req !! k
    | vs => Some (default [] (Header req !! k) ++ vs)
    end.
Proof.
  revert req. induction headers as [|[key value] headers IH]; intros req;
    [done|].
  rewrite valuesFor_cons. simpl addHeaders. rewrite IH. simpl.
  unfold Header_Add.
  destruct (decide (canon key = k)) as [->|Hne].
  - rewrite lookup_insert_eq. simpl.
    destruct (valuesFor canon headers k); [done|].
    by rewrite <-app_assoc.
  - by rewrite lookup_insert_ne.
Qed.

(** Every path through [Send] after a rendered body. *)
Lemma Send_paths c entry body :
  rendered w c entry = Ok body →
  Send canon w c entry =
    match http_NewRequest w "POST" (Endpoint (cfg c)) with
    | Err e => ([Cancel (WithStack Canceled)], Err e)
    | Ok _ =>
        if Timeout (cfg c) <=? latency (remote w (request canon c body)) then
          ([ClientDo (request canon c body); Cancel (WithStack Canceled)],
           Err (UrlError "Post" (Endpoint (cfg c)) (WithStack DeadlineExceeded)))
        else
          match reply (remote w (request canon c body)) with
          | Ok _ =>
              ([ClientDo (request canon c body); BodyClose;
                Cancel (WithStack Canceled)], Ok tt)
          | Err e =>
              ([ClientDo (request canon c body); Cancel (WithStack Canceled)],
               Err (UrlError "Post" (Endpoint (cfg c)) e))
          end
    end.
Proof.
  intros Hr. rewrite (Send_rendered canon w c entry body Hr).
  destruct (http_NewRequest w "POST" (Endpoint (cfg c))) as [[]|e]; [|done].
  unfold Client_Do, bind, emit, fail, ret, outcome.
  rewrite request_Deadline.
  assert (URL (request canon c body) = Endpoint (cfg c)) as ->.
  { unfold request, setUserAgent. simpl.
    destruct (0 <? _); [|done]. by destruct (addHeaders_fields
      {| Method := "POST"; URL := Endpoint (cfg c); Body := body;
         Header := ∅;
         Ctx := WithTimeoutCause (WithCancelCause Background)
                  (Timeout (cfg c)) (WithStack DeadlineExceeded) |}
      (Headers (cfg c))) as (_ & -> & _). }
  simpl. destruct (_ <=? _); [done|].
  by destruct (reply _).
Qed.

(** X17.  [Send] never retries: it hands at most one request to the
    transport, and exactly one when the event rendered and the request
    could be built. *)
Theorem send_makes_at_most_one_request c entry :
  (length (delivered (trace (Send canon w c entry))) ≤ 1)%nat ∧
  (delivered (trace (Send canon w c entry)) ≠ [] ↔
   ∃ body, rendered w c entry = Ok body ∧
           http_NewRequest w "POST" (Endpoint (cfg c)) = Ok tt).
Proof.
  destruct (rendered w c entry) as [body|e] eqn:Hr.
  - rewrite (Send_paths c entry body Hr).
    destruct (http_NewRequest w "POST" (Endpoint (cfg c))) as [[]|e].
    + destruct (_ <=? _); [|destruct (reply _)]; simpl;
        (split; [lia|]); (split; [eauto|done]).
    + simpl. split; [lia|]. split; [done|]. by intros (? & _ & ?).
  - rewrite (Send_not_rendered canon w c entry e Hr). simpl.
    split; [lia|]. split; [done|]. by intros (? & ? & _).
Qed.

(** X18.  The request [Send] hands to the transport is a POST to the
    configured endpoint whose body is the rendered event, under a
    context that expires after the configured timeout with a cause that
    wraps [context.DeadlineExceeded]. *)
Theorem send_posts_rendered_body c entry req :
  req ∈ delivered (trace (Send canon w c entry)) →
  Method req = "POST" ∧
  URL req = Endpoint (cfg c) ∧
  rendered w c entry = Ok (Body req) ∧
  Deadline (Ctx req) = Some (Timeout (cfg c), WithStack DeadlineExceeded).
Proof.
  intros (body & Hr & _ & ->)%Send_delivered.
  rewrite request_Deadline. unfold request, setUserAgent. simpl.
  destruct (0 <? _); [|done].
  by destruct (addHeaders_fields
    {| Method := "POST"; URL := Endpoint (cfg c); Body := body; Header := ∅;
       Ctx := WithTimeoutCause (WithCancelCause Background)
                (Timeout (cfg c)) (WithStack DeadlineExceeded) |}
    (Headers (cfg c))) as (-> & -> & ->).
Qed.

(** X19.  Every configured header reaches the transport: under each
    canonical key other than that of [User-Agent], the request holds the
    configured values whose key canonicalises to it, in the order the
    headers were visited, and nothing under a key no header names. *)
Theorem send_carries_custom_headers c entry req k :
  req ∈ delivered (trace (Send canon w c entry)) →
  k ≠ canon "User-Agent" →
  Header req !! k =
    match valuesFor canon (Headers (cfg c)) k with
    | [] => None
    | vs => Some vs
    end.
Proof.
  intros (body & _ & _ & ->)%Send_delivered Hk.
  unfold request, setUserAgent, Header_Set. simpl.
  rewrite lookup_insert_ne by done.
  destruct (Headers (cfg c)) as [|header headers].
  - simpl. by rewrite lookup_empty.
  - replace (0 <? Z.of_nat (length (header :: headers))) with true
      by (symmetry; apply Z.ltb_lt; simpl length; lia).
    rewrite addHeaders_lookup. simpl Header. by rewrite lookup_empty.
Qed.

(** X20.  When the request cannot be built (the endpoint is not a URL),
    [Send] returns that error; nothing reaches the transport, and the
    context made for the delivery is cancelled. *)
Theorem send_bad_request_sends_nothing c entry body e :
  rendered w c entry = Ok body →
  http_NewRequest w "POST" (Endpoint (cfg c)) = Err e →
  Send canon w c entry = ([Cancel (WithStack Canceled)], Err e).
Proof. intros Hr Hn. by rewrite (Send_paths c entry body Hr), Hn. Qed.

(** X21.  Once the event has rendered, [Send] cancels its context
    exactly once, as the last thing it does, however it ends; and it
    closes the body of the response exactly when the transport gave
    one, which is when it returns success. *)
Theorem send_releases_what_it_acquired c entry body :
  rendered w c entry = Ok body →
  List.filter isCancel (trace (Send canon w c entry))
  = [Cancel (WithStack Canceled)] ∧
  last (trace (Send canon w c entry)) = Some (Cancel (WithStack Canceled)) ∧
  List.filter isBodyClose (trace (Send canon w c entry))
  = match outcome (Send canon w c entry) with
    | Ok _ => [BodyClose]
    | Err _ => []
    end.
Proof.
  intros Hr. rewrite (Send_paths c entry body Hr).
  destruct (http_NewRequest w "POST" (Endpoint (cfg c))) as [[]|?]; [|done].
  destruct (_ <=? _); [done|]. by destruct (reply _).
Qed.

(** X22.  [Send] returns success exactly when the event renders, the
    request can be built, and the remote end answers with a response,
    of whatever status, before the timeout has run out. *)
Theorem send_succeeds_iff c entry :
  outcome (Send canon w c entry) = Ok tt ↔
  ∃ body,
    rendered w c entry = Ok body ∧
    http_NewRequest w "POST" (Endpoint (cfg c)) = Ok tt ∧
    latency (remote w (request canon c body)) < Timeout (cfg c) ∧
    ∃ resp, reply (remote w (request canon c body)) = Ok resp.
Proof.
  destruct (rendered w c entry) as [body|e] eqn:Hr.
  - rewrite (Send_paths c entry body Hr).
    destruct (http_NewRequest w "POST" (Endpoint (cfg c))) as [[]|e].
    + destruct (Z.leb_spec (Timeout (cfg c))
                  (latency (remote w (request canon c body)))) as [Hlate|Hearly].
      * simpl. split; [done|]. intros (body' & [= <-] & _ & ? & _). lia.
      * destruct (reply (remote w (request canon c body))) as [resp|e] eqn:Hreply;
          simpl.
        -- split; [|done]. intros _. exists body. eauto.
        -- split; [done|]. intros (body' & [= <-] & _ & _ & resp & Hresp).
           congruence.
    + simpl. split; [done|]. by intros (? & _ & ? & _).
  - rewrite (Send_not_rendered canon w c entry e Hr). simpl.
    split; [done|]. by intros (? & ? & _).
Qed.

End SendMore.

(** ** The theorems at work on a concrete webhook *)
Import Samples Scenarios.

Lemma refused_send_is_not_repeated :
  (length (delivered (trace (Send canonicalKey (hook (refuses 5)) client
                               "new image"))) ≤ 1)%nat.
Proof.
  exact (proj1 (send_makes_at_most_one_request canonicalKey (hook (refuses 5))
                  client "new image")).
Defined.

Lemma send_posts_the_entry :
  Method (request canonicalKey client "new image") = "POST" ∧
  URL (request canonicalKey client "new image") = "https://example.org/hook" ∧
  rendered (hook (answers 200 5)) client "new image"
  = Ok (Body (request canonicalKey client "new image")) ∧
  Deadline (Ctx (request canonicalKey client "new image"))
  = Some (10000000000, WithStack DeadlineExceeded).
Proof.
  apply (send_posts_rendered_body canonicalKey (hook (answers 200 5)) client
           "new image" (request canonicalKey client "new image")).
  vm_compute. left.
Defined.

(** Two spellings of one key are merged, in the order they come. *)
Lemma send_merges_spellings :
  Header (request canonicalKey
            (clientWith "https://example.org/hook"
               [("x-token", "t"); ("User-Agent", "custom/1.0");
                ("X-TOKEN", "u")])
            "new image") !! "X-Token"
  = Some ["t"; "u"].
Proof.
  apply (send_carries_custom_headers canonicalKey (hook (answers 200 5))
           (clientWith "https://example.org/hook"
              [("x-token", "t"); ("User-Agent", "custom/1.0");
               ("X-TOKEN", "u")])
           "new image"
           (request canonicalKey
              (clientWith "https://example.org/hook"
                 [("x-token", "t"); ("User-Agent", "custom/1.0");
                  ("X-TOKEN", "u")])
              "new image")
           "X-Token").
  - vm_compute. left.
  - vm_compute. discriminate.
Defined.

Lemma send_to_empty_endpoint :
  Send canonicalKey (hook (answers 200 5)) (clientWith EmptyString [])
    "new image"
  = ([Cancel (WithStack Canceled)], Err (Plain "empty url")).
Proof.
  apply (send_bad_request_sends_nothing canonicalKey (hook (answers 200 5))
           (clientWith EmptyString []) "new image" "new image");
    reflexivity.
Defined.

Lemma refused_send_cancels :
  List.filter isCancel
    (trace (Send canonicalKey (hook (refuses 5)) client "new image"))
  = [Cancel (WithStack Canceled)] ∧
  last (trace (Send canonicalKey (hook (refuses 5)) client "new image"))
  = Some (Cancel (WithStack Canceled)) ∧
  List.filter isBodyClose
    (trace (Send canonicalKey (hook (refuses 5)) client "new image"))
  = match outcome (Send canonicalKey (hook (refuses 5)) client "new image")
    with
    | Ok _ => [BodyClose]
    | Err _ => []
    end.
Proof.
  apply (send_releases_what_it_acquired canonicalKey (hook (refuses 5)) client
           "new image" "new image").
  reflexivity.
Defined.

Lemma send_answered_404_in_time :
  outcome (Send canonicalKey (hook (answers 404 5)) client "new image")
  = Ok tt.
Proof.
  apply (proj2 (send_succeeds_iff canonicalKey (hook (answers 404 5)) client
                  "new image")).
  exists "new image".
  split_and!; [reflexivity|reflexivity|reflexivity|].
  by eexists.
Defined.

End WebhookMore.
